(** * ELD trip planner: Hours-of-Service rules and trip scheduler

    A shallow embedding of [trips/hos_rules.py], [trips/scheduler.py], the
    request validation of [trips/serializers.py] and the scheduling path of
    [trips/views.py].

    Numbers.  Python floats (hours, miles) are read as exact rationals [Q];
    equality of such quantities is [Qeq] ([==]).  A [datetime] is a whole
    number of microseconds ([Z]), as in CPython, and a [timedelta] built from
    a float number of hours is rounded to the nearest microsecond,
    ties to even, as the [datetime] documentation specifies. *)

From Stdlib Require Import ZArith QArith Qround Qminmax Lia Lqa List String Ascii Bool.
From Stdlib Require Import DecimalString.
Import ListNotations.

Open Scope Q_scope.

(* ------------------------------------------------------------------ *)
(** ** Python arithmetic on rationals *)

Definition Qltb (a b : Q) : bool := negb (Qle_bool b a).

(** [max(a, b)]: Python keeps the first argument unless the second is
    strictly greater. *)
Definition py_max (a b : Q) : Q := if Qltb a b then b else a.

(** [min(a, b)]: the first argument unless the second is strictly smaller. *)
Definition py_min (a b : Q) : Q := if Qltb b a then b else a.

(** [min(xs)] on a non-empty list: left-to-right scan keeping the first
    minimum. *)
Definition py_min_list (x : Q) (xs : list Q) : Q := fold_left py_min xs x.

(** [x % m] for a positive modulus: [x - m * floor(x / m)]. *)
Definition py_mod (x m : Q) : Q := x - m * inject_Z (Qfloor (x / m)).

(** [int(x)]: truncation toward zero. *)
Definition py_int (x : Q) : Z := if Qltb x 0 then Qceiling x else Qfloor x.

(** Rounding to the nearest integer, ties to even (used by [timedelta] and by
    the [:.0f] format). *)
Definition round_half_even (q : Q) : Z :=
  let f := Qfloor q in
  let r := q - inject_Z f in
  if Qltb r (1 # 2) then f
  else if Qltb (1 # 2) r then (f + 1)%Z
  else if Z.even f then f else (f + 1)%Z.

(* ------------------------------------------------------------------ *)
(** ** hos_rules.py *)

Definition MAX_DRIVING_HOURS : Q := 11.
Definition MAX_DUTY_WINDOW_HOURS : Q := 14.
Definition BREAK_REQUIRED_AFTER_HOURS : Q := 8.
Definition BREAK_DURATION_MINUTES : Z := 30.
Definition OFF_DUTY_RESET_HOURS : Q := 10.
Definition CYCLE_LIMIT_HOURS : Q := 70.
Definition CYCLE_DAYS : Z := 8.

Definition FUEL_STOP_INTERVAL_MILES : Q := 1000.
Definition FUEL_STOP_DURATION_MINUTES : Z := 30.
Definition PICKUP_DURATION_MINUTES : Z := 60.
Definition DROPOFF_DURATION_MINUTES : Z := 60.
Definition AVG_SPEED_MPH : Q := 55.

Record HOSState : Type := mkHOSState {
  driving_hours_in_shift : Q;
  on_duty_hours_in_shift : Q;
  duty_window_hours : Q;
  driving_since_last_break : Q;
  cycle_hours_used : Q;
  shift_active : bool
}.

Definition driving_hours_remaining (s : HOSState) : Q :=
  py_max 0 (MAX_DRIVING_HOURS - driving_hours_in_shift s).

Definition duty_window_remaining (s : HOSState) : Q :=
  py_max 0 (MAX_DUTY_WINDOW_HOURS - duty_window_hours s).

Definition cycle_hours_remaining (s : HOSState) : Q :=
  py_max 0 (CYCLE_LIMIT_HOURS - cycle_hours_used s).

Definition hours_until_break_required (s : HOSState) : Q :=
  py_max 0 (BREAK_REQUIRED_AFTER_HOURS - driving_since_last_break s).

Definition needs_30_min_break (s : HOSState) : bool :=
  Qle_bool BREAK_REQUIRED_AFTER_HOURS (driving_since_last_break s).

Definition can_drive (s : HOSState) : bool :=
  Qltb 0 (driving_hours_remaining s) &&
  Qltb 0 (duty_window_remaining s) &&
  Qltb 0 (cycle_hours_remaining s) &&
  negb (needs_30_min_break s).

Definition get_max_continuous_driving_hours (s : HOSState) : Q :=
  let limits :=
    (driving_hours_remaining s,
     [duty_window_remaining s;
      cycle_hours_remaining s;
      hours_until_break_required s]) in
  py_max 0 (py_min_list (fst limits) (snd limits)).

Definition start_new_shift (state : HOSState) : HOSState :=
  {| driving_hours_in_shift := 0;
     on_duty_hours_in_shift := 0;
     duty_window_hours := 0;
     driving_since_last_break := 0;
     cycle_hours_used := cycle_hours_used state;
     shift_active := true |}.

Definition add_driving_time (state : HOSState) (hours : Q) : HOSState :=
  let state := if shift_active state then state else start_new_shift state in
  {| driving_hours_in_shift := driving_hours_in_shift state + hours;
     on_duty_hours_in_shift := on_duty_hours_in_shift state + hours;
     duty_window_hours := duty_window_hours state + hours;
     driving_since_last_break := driving_since_last_break state + hours;
     cycle_hours_used := cycle_hours_used state + hours;
     shift_active := true |}.

Definition add_on_duty_time (state : HOSState) (hours : Q) (counts_as_break : bool)
  : HOSState :=
  let state := if shift_active state then state else start_new_shift state in
  let new_driving_since_break :=
    if counts_as_break && Qle_bool (inject_Z BREAK_DURATION_MINUTES / 60) hours
    then 0 else driving_since_last_break state in
  {| driving_hours_in_shift := driving_hours_in_shift state;
     on_duty_hours_in_shift := on_duty_hours_in_shift state + hours;
     duty_window_hours := duty_window_hours state + hours;
     driving_since_last_break := new_driving_since_break;
     cycle_hours_used := cycle_hours_used state + hours;
     shift_active := true |}.

Definition add_off_duty_time (state : HOSState) (hours : Q) : HOSState :=
  if Qle_bool OFF_DUTY_RESET_HOURS hours then
    {| driving_hours_in_shift := 0;
       on_duty_hours_in_shift := 0;
       duty_window_hours := 0;
       driving_since_last_break := 0;
       cycle_hours_used := cycle_hours_used state;
       shift_active := false |}
  else
    {| driving_hours_in_shift := driving_hours_in_shift state;
       on_duty_hours_in_shift := on_duty_hours_in_shift state;
       duty_window_hours := duty_window_hours state + hours;
       driving_since_last_break := 0;
       cycle_hours_used := cycle_hours_used state;
       shift_active := shift_active state |}.

(* ------------------------------------------------------------------ *)
(** ** datetime, timedelta and string formatting *)

(** A naive [datetime]: microseconds since the start of day 0. *)
Definition datetime : Type := Z.

Definition US_PER_SECOND : Z := 1000000.
Definition US_PER_MINUTE : Z := 60 * US_PER_SECOND.
Definition US_PER_HOUR : Z := 60 * US_PER_MINUTE.
Definition US_PER_DAY : Z := 24 * US_PER_HOUR.

(** [timedelta(minutes=n)] for an integer [n]. *)
Definition timedelta_minutes (n : Z) : Z := (n * US_PER_MINUTE)%Z.

(** [timedelta(days=n)] for an integer [n]. *)
Definition timedelta_days (n : Z) : Z := (n * US_PER_DAY)%Z.

(** [timedelta(hours=h)] for a float [h]: the fractional microseconds are
    rounded to the nearest microsecond, ties to even. *)
Definition timedelta_hours (h : Q) : Z :=
  round_half_even (h * inject_Z US_PER_HOUR).

(** [(b - a).total_seconds() / 3600] and [... / 60]. *)
Definition hours_between (a b : datetime) : Q :=
  inject_Z (b - a) / inject_Z US_PER_HOUR.
Definition minutes_between (a b : datetime) : Q :=
  inject_Z (b - a) / inject_Z US_PER_MINUTE.

Definition string_of_Z (z : Z) : string := NilZero.string_of_int (Z.to_int z).

(** [f"{x:.0f}"]. *)
Definition format_0f (x : Q) : string :=
  let z := round_half_even x in
  if Qltb x 0 && (z =? 0)%Z then "-0"%string else string_of_Z z.

Definition pad4 (n : Z) : string :=
  let s := string_of_Z n in
  match String.length s with
  | 1%nat => ("000" ++ s)%string
  | 2%nat => ("00" ++ s)%string
  | 3%nat => ("0" ++ s)%string
  | _ => s
  end.

(** [f"{x:.4f}"]. *)
Definition format_4f (x : Q) : string :=
  let z := Z.abs (round_half_even (x * 10000)) in
  ((if Qltb x 0 then "-" else "") ++
   string_of_Z (z / 10000) ++ "." ++ pad4 (z mod 10000))%string.

(* ------------------------------------------------------------------ *)
(** ** routing.py: the data the scheduler consumes *)

Record Location : Type := mkLocation {
  lat : Q;
  lng : Q;
  address : string
}.

Record RouteLeg : Type := mkRouteLeg {
  from_location : string;
  to_location : string;
  distance_miles : Q;
  duration_minutes_leg : Q;
  polyline : string
}.

Record RouteResult : Type := mkRouteResult {
  legs : list RouteLeg;
  total_distance_miles : Q;
  total_duration_minutes : Q;
  full_polyline : string
}.

(* ------------------------------------------------------------------ *)
(** ** scheduler.py *)

Inductive DutyStatus : Type :=
  | OFF_DUTY | SLEEPER_BERTH | DRIVING | ON_DUTY_NOT_DRIVING.

Inductive StopType : Type :=
  | PICKUP | DROPOFF | FUEL | REST_BREAK | STOP_OFF_DUTY.

Definition DutyStatus_eqb (a b : DutyStatus) : bool :=
  match a, b with
  | OFF_DUTY, OFF_DUTY | SLEEPER_BERTH, SLEEPER_BERTH
  | DRIVING, DRIVING | ON_DUTY_NOT_DRIVING, ON_DUTY_NOT_DRIVING => true
  | _, _ => false
  end.

Definition StopType_eqb (a b : StopType) : bool :=
  match a, b with
  | PICKUP, PICKUP | DROPOFF, DROPOFF | FUEL, FUEL
  | REST_BREAK, REST_BREAK | STOP_OFF_DUTY, STOP_OFF_DUTY => true
  | _, _ => false
  end.

Record ScheduleEvent : Type := mkScheduleEvent {
  start_time : datetime;
  end_time : datetime;
  status : DutyStatus;
  note : string;
  location : string;
  miles_start : Q;
  miles_end : Q
}.

Definition duration_hours (e : ScheduleEvent) : Q :=
  hours_between (start_time e) (end_time e).

Definition duration_minutes (e : ScheduleEvent) : Q :=
  minutes_between (start_time e) (end_time e).

Record Stop : Type := mkStop {
  stop_type : StopType;
  stop_duration_minutes : Z;
  stop_location : string;
  stop_lat : option Q;
  stop_lng : option Q;
  mile_marker : option Q;
  reason : string
}.

Record TripSchedule : Type := mkTripSchedule {
  events : list ScheduleEvent;
  stops : list Stop;
  total_driving_hours : Q;
  total_on_duty_hours : Q;
  total_off_duty_hours : Q;
  total_miles : Q;
  trip_start_time : option datetime;
  trip_end_time : option datetime
}.

(** [schedule.events.append(e)], [schedule.stops.append(s)] and the
    [+=] updates of the running totals, on the schedule passed around by
    reference. *)
Definition append_event (e : ScheduleEvent) (sch : TripSchedule) : TripSchedule :=
  {| events := events sch ++ [e]; stops := stops sch;
     total_driving_hours := total_driving_hours sch;
     total_on_duty_hours := total_on_duty_hours sch;
     total_off_duty_hours := total_off_duty_hours sch;
     total_miles := total_miles sch;
     trip_start_time := trip_start_time sch;
     trip_end_time := trip_end_time sch |}.

Definition append_stop (s : Stop) (sch : TripSchedule) : TripSchedule :=
  {| events := events sch; stops := stops sch ++ [s];
     total_driving_hours := total_driving_hours sch;
     total_on_duty_hours := total_on_duty_hours sch;
     total_off_duty_hours := total_off_duty_hours sch;
     total_miles := total_miles sch;
     trip_start_time := trip_start_time sch;
     trip_end_time := trip_end_time sch |}.

Definition add_totals (drv onduty offduty : Q) (sch : TripSchedule) : TripSchedule :=
  {| events := events sch; stops := stops sch;
     total_driving_hours := total_driving_hours sch + drv;
     total_on_duty_hours := total_on_duty_hours sch + onduty;
     total_off_duty_hours := total_off_duty_hours sch + offduty;
     total_miles := total_miles sch;
     trip_start_time := trip_start_time sch;
     trip_end_time := trip_end_time sch |}.

Definition finish_schedule (miles : Q) (t : datetime) (sch : TripSchedule)
  : TripSchedule :=
  {| events := events sch; stops := stops sch;
     total_driving_hours := total_driving_hours sch;
     total_on_duty_hours := total_on_duty_hours sch;
     total_off_duty_hours := total_off_duty_hours sch;
     total_miles := miles;
     trip_start_time := trip_start_time sch;
     trip_end_time := Some t |}.

(** [location.address or f"{location.lat:.4f}, {location.lng:.4f}"]. *)
Definition address_or_coords (l : Location) : string :=
  match address l with
  | EmptyString => (format_4f (lat l) ++ ", " ++ format_4f (lng l))%string
  | a => a
  end.

(** Each helper returns the mutated schedule next to the source's
    [(end_time, hos_state)] result. *)
Definition _add_pickup_stop (schedule : TripSchedule) (current_time : datetime)
    (hos_state : HOSState) (current_miles : Q) (loc : Location)
  : TripSchedule * (datetime * HOSState) :=
  let duration_hours := inject_Z PICKUP_DURATION_MINUTES / 60 in
  let end_time := (current_time + timedelta_minutes PICKUP_DURATION_MINUTES)%Z in
  let schedule := append_event
    (mkScheduleEvent current_time end_time ON_DUTY_NOT_DRIVING
       "Pickup - Loading" (address_or_coords loc) current_miles current_miles)
    schedule in
  let schedule := append_stop
    (mkStop PICKUP PICKUP_DURATION_MINUTES (address loc)
       (Some (lat loc)) (Some (lng loc)) (Some current_miles) "Loading cargo")
    schedule in
  let hos_state := add_on_duty_time hos_state duration_hours true in
  let schedule := add_totals 0 duration_hours 0 schedule in
  (schedule, (end_time, hos_state)).

Definition _add_dropoff_stop (schedule : TripSchedule) (current_time : datetime)
    (hos_state : HOSState) (current_miles : Q) (loc : Location)
  : TripSchedule * (datetime * HOSState) :=
  let duration_hours := inject_Z DROPOFF_DURATION_MINUTES / 60 in
  let end_time := (current_time + timedelta_minutes DROPOFF_DURATION_MINUTES)%Z in
  let schedule := append_event
    (mkScheduleEvent current_time end_time ON_DUTY_NOT_DRIVING
       "Dropoff - Unloading" (address_or_coords loc) current_miles current_miles)
    schedule in
  let schedule := append_stop
    (mkStop DROPOFF DROPOFF_DURATION_MINUTES (address loc)
       (Some (lat loc)) (Some (lng loc)) (Some current_miles) "Unloading cargo")
    schedule in
  let hos_state := add_on_duty_time hos_state duration_hours true in
  let schedule := add_totals 0 duration_hours 0 schedule in
  (schedule, (end_time, hos_state)).

Definition _add_fuel_stop (schedule : TripSchedule) (current_time : datetime)
    (hos_state : HOSState) (current_miles : Q) (location_note : string)
  : TripSchedule * (datetime * HOSState) :=
  let duration_hours := inject_Z FUEL_STOP_DURATION_MINUTES / 60 in
  let end_time := (current_time + timedelta_minutes FUEL_STOP_DURATION_MINUTES)%Z in
  let schedule := append_event
    (mkScheduleEvent current_time end_time ON_DUTY_NOT_DRIVING
       "Fuel Stop" location_note current_miles current_miles)
    schedule in
  let schedule := append_stop
    (mkStop FUEL FUEL_STOP_DURATION_MINUTES location_note
       None None (Some current_miles) "Refueling")
    schedule in
  let hos_state := add_on_duty_time hos_state duration_hours true in
  let schedule := add_totals 0 duration_hours 0 schedule in
  (schedule, (end_time, hos_state)).

Definition _add_rest_break (schedule : TripSchedule) (current_time : datetime)
    (hos_state : HOSState) (current_miles : Q) (location_note : string)
  : TripSchedule * (datetime * HOSState) :=
  let duration_hours := inject_Z BREAK_DURATION_MINUTES / 60 in
  let end_time := (current_time + timedelta_minutes BREAK_DURATION_MINUTES)%Z in
  let schedule := append_event
    (mkScheduleEvent current_time end_time OFF_DUTY
       "30-min Rest Break (8hr rule)" location_note current_miles current_miles)
    schedule in
  let schedule := append_stop
    (mkStop REST_BREAK BREAK_DURATION_MINUTES location_note
       None None (Some current_miles)
       "Required 30-minute break after 8 hours driving")
    schedule in
  let hos_state := add_off_duty_time hos_state duration_hours in
  let schedule := add_totals 0 0 duration_hours schedule in
  (schedule, (end_time, hos_state)).

Definition _add_off_duty_reset (schedule : TripSchedule) (current_time : datetime)
    (hos_state : HOSState) (current_miles : Q) (location_note : string)
  : TripSchedule * (datetime * HOSState) :=
  let duration_hours := OFF_DUTY_RESET_HOURS in
  let end_time := (current_time + timedelta_hours duration_hours)%Z in
  let schedule := append_event
    (mkScheduleEvent current_time end_time OFF_DUTY
       "10-hr Off Duty (Shift Reset)" location_note current_miles current_miles)
    schedule in
  let schedule := append_stop
    (mkStop STOP_OFF_DUTY (py_int (duration_hours * 60)) location_note
       None None (Some current_miles)
       "Required 10-hour off-duty period to reset driving limits")
    schedule in
  let hos_state := add_off_duty_time hos_state duration_hours in
  let schedule := add_totals 0 0 duration_hours schedule in
  (schedule, (end_time, hos_state)).

(** The variables the drive loop of [create_trip_schedule] reads and
    writes. *)
Record DriveState : Type := mkDriveState {
  schedule : TripSchedule;
  current_time : datetime;
  hos_state : HOSState;
  current_miles : Q;
  miles_to_drive : Q;
  leg_miles_driven : Q
}.

(** [current_time, hos_state = _add_x(schedule, ...)]. *)
Definition store_stop (s : DriveState) (r : TripSchedule * (datetime * HOSState))
  : DriveState :=
  {| schedule := fst r;
     current_time := fst (snd r);
     hos_state := snd (snd r);
     current_miles := current_miles s;
     miles_to_drive := miles_to_drive s;
     leg_miles_driven := leg_miles_driven s |}.

Definition near_mile (current_miles : Q) : string :=
  ("Near mile " ++ format_0f current_miles)%string.

Definition miles_to_next_fuel (current_miles : Q) : Q :=
  let miles_since_last_fuel := py_mod current_miles FUEL_STOP_INTERVAL_MILES in
  let miles_to_next_fuel := FUEL_STOP_INTERVAL_MILES - miles_since_last_fuel in
  if Qle_bool miles_to_next_fuel 0 then FUEL_STOP_INTERVAL_MILES
  else miles_to_next_fuel.

Definition miles_this_segment (s : DriveState) : Q :=
  let max_driving_hours := get_max_continuous_driving_hours (hos_state s) in
  let max_miles_hos := max_driving_hours * AVG_SPEED_MPH in
  py_min_list (miles_to_drive s)
    [max_miles_hos; miles_to_next_fuel (current_miles s)].

(** The branch of the loop body taken when [miles_this_segment <= 0]. *)
Definition cannot_drive (s : DriveState) : DriveState :=
  if needs_30_min_break (hos_state s) then
    store_stop s
      (_add_rest_break (schedule s) (current_time s) (hos_state s)
         (current_miles s) (near_mile (current_miles s)))
  else if Qle_bool (duty_window_remaining (hos_state s)) 0
          || Qle_bool (driving_hours_remaining (hos_state s)) 0 then
    store_stop s
      (_add_off_duty_reset (schedule s) (current_time s) (hos_state s)
         (current_miles s) (near_mile (current_miles s)))
  else if Qle_bool (cycle_hours_remaining (hos_state s)) 0 then
    store_stop s
      (_add_off_duty_reset (schedule s) (current_time s) (hos_state s)
         (current_miles s) (near_mile (current_miles s) ++ " (cycle limit)")%string)
  else s.

(** The driving event and the state update that follows it. *)
Definition drive_segment (end_name : string) (seg : Q) (s : DriveState)
  : DriveState :=
  let driving_hours := seg / AVG_SPEED_MPH in
  let end_time := (current_time s + timedelta_hours driving_hours)%Z in
  let sch := append_event
    (mkScheduleEvent (current_time s) end_time DRIVING
       ("Driving to " ++ end_name)%string
       ("Mile " ++ format_0f (current_miles s) ++ " - "
          ++ format_0f (current_miles s + seg))%string
       (current_miles s) (current_miles s + seg))
    (schedule s) in
  {| schedule := add_totals driving_hours driving_hours 0 sch;
     current_time := end_time;
     hos_state := add_driving_time (hos_state s) driving_hours;
     current_miles := current_miles s + seg;
     miles_to_drive := miles_to_drive s - seg;
     leg_miles_driven := leg_miles_driven s + seg |}.

Definition check_fuel_stop (seg : Q) (s : DriveState) : DriveState :=
  if Qltb (py_mod (current_miles s) FUEL_STOP_INTERVAL_MILES) seg
     && Qltb 0 (miles_to_drive s) then
    store_stop s
      (_add_fuel_stop (schedule s) (current_time s) (hos_state s)
         (current_miles s)
         ("Fuel stop at mile " ++ format_0f (current_miles s))%string)
  else s.

Definition check_rest_break (s : DriveState) : DriveState :=
  if needs_30_min_break (hos_state s) && Qltb 0 (miles_to_drive s) then
    store_stop s
      (_add_rest_break (schedule s) (current_time s) (hos_state s)
         (current_miles s) (near_mile (current_miles s)))
  else s.

Definition check_reset (s : DriveState) : DriveState :=
  if (Qle_bool (duty_window_remaining (hos_state s)) 0
      || Qle_bool (driving_hours_remaining (hos_state s)) 0)
     && Qltb 0 (miles_to_drive s) then
    store_stop s
      (_add_off_duty_reset (schedule s) (current_time s) (hos_state s)
         (current_miles s) (near_mile (current_miles s)))
  else s.

(** One pass through the body of [while miles_to_drive > 0]. *)
Definition drive_iteration (end_name : string) (s : DriveState) : DriveState :=
  let seg := miles_this_segment s in
  if Qle_bool seg 0 then cannot_drive s
  else check_reset (check_rest_break (check_fuel_stop seg
         (drive_segment end_name seg s))).

(** [while miles_to_drive > 0: ...]; [fuel] bounds the number of passes and
    [None] means the bound was reached with the loop still running. *)
Fixpoint drive_loop (fuel : nat) (end_name : string) (s : DriveState)
  : option DriveState :=
  if Qltb 0 (miles_to_drive s) then
    match fuel with
    | O => None
    | S fuel' => drive_loop fuel' end_name (drive_iteration end_name s)
    end
  else Some s.

Inductive outcome (A : Type) : Type :=
  | Returned (a : A)
  | IndexError
  | OutOfFuel.
Arguments Returned {A} a.
Arguments IndexError {A}.
Arguments OutOfFuel {A}.

Record LegData : Type := mkLegData {
  leg : RouteLeg;
  start_location : Location;
  end_location : Location;
  end_type : StopType;
  end_name : string
}.

(** The body of [for leg_index, leg_data in enumerate(legs_data)] for one
    leg: the drive loop, then the leg's terminal stop. *)
Definition process_leg (fuel : nat) (pickup_location dropoff_location : Location)
    (leg_data : LegData) (s : DriveState) : option DriveState :=
  let leg_miles := distance_miles (leg leg_data) in
  let s := {| schedule := schedule s; current_time := current_time s;
              hos_state := hos_state s; current_miles := current_miles s;
              miles_to_drive := leg_miles; leg_miles_driven := 0 |} in
  match drive_loop fuel (end_name leg_data) s with
  | None => None
  | Some s =>
      if StopType_eqb (end_type leg_data) PICKUP then
        Some (store_stop s
          (_add_pickup_stop (schedule s) (current_time s) (hos_state s)
             (current_miles s) pickup_location))
      else
        Some (store_stop s
          (_add_dropoff_stop (schedule s) (current_time s) (hos_state s)
             (current_miles s) dropoff_location))
  end.

Fixpoint process_legs (fuel : nat) (pickup_location dropoff_location : Location)
    (legs_data : list LegData) (s : DriveState) : option DriveState :=
  match legs_data with
  | [] => Some s
  | leg_data :: rest =>
      match process_leg fuel pickup_location dropoff_location leg_data s with
      | None => None
      | Some s' => process_legs fuel pickup_location dropoff_location rest s'
      end
  end.

(** [datetime.now().replace(minute=0, second=0, microsecond=0)
     + timedelta(hours=1)]. *)
Definition default_start_time (now : datetime) : datetime :=
  (now / US_PER_HOUR * US_PER_HOUR + 1 * US_PER_HOUR)%Z.

(** [create_trip_schedule].  [now] is the clock reading used when
    [start_time] is [None]; [fuel] bounds the passes of each drive loop. *)
Definition create_trip_schedule (fuel : nat) (now : datetime)
    (route : RouteResult)
    (current_location pickup_location dropoff_location : Location)
    (cycle_used_hours : Q) (start_time : option datetime)
  : outcome TripSchedule :=
  let start_time :=
    match start_time with
    | None => default_start_time now
    | Some t => t
    end in
  let sch := mkTripSchedule [] [] 0 0 0 0 (Some start_time) None in
  let hos := mkHOSState 0 0 0 0 cycle_used_hours false in
  let hos := start_new_shift hos in
  match nth_error (legs route) 0, nth_error (legs route) 1 with
  | Some leg0, Some leg1 =>
      let legs_data :=
        [ mkLegData leg0 current_location pickup_location PICKUP "Pickup";
          mkLegData leg1 pickup_location dropoff_location DROPOFF "Dropoff" ] in
      match process_legs fuel pickup_location dropoff_location legs_data
              (mkDriveState sch start_time hos 0 0 0) with
      | None => OutOfFuel
      | Some s =>
          Returned (finish_schedule (current_miles s) (current_time s) (schedule s))
      end
  | _, _ => IndexError
  end.



(** [get_schedule_by_day].  The key [strftime("%Y-%m-%d")] is an injective
    rendering of the calendar date, so a day is keyed by its day number; the
    dict, which keeps insertion order, is an association list. *)
Definition ByDay : Type := list (Z * list ScheduleEvent).

Definition date_of (t : datetime) : Z := (t / US_PER_DAY)%Z.

(** [t.replace(hour=h, minute=m, second=s)]: the microsecond field is kept. *)
Definition replace_hms (t : datetime) (h m s : Z) : datetime :=
  (date_of t * US_PER_DAY + h * US_PER_HOUR + m * US_PER_MINUTE
   + s * US_PER_SECOND + t mod US_PER_SECOND)%Z.

(** [if day_key not in by_day: by_day[day_key] = []] followed by
    [by_day[day_key].append(day_event)]. *)
Fixpoint by_day_append (day_key : Z) (day_event : ScheduleEvent) (by_day : ByDay)
  : ByDay :=
  match by_day with
  | [] => [(day_key, [day_event])]
  | (k, evs) :: rest =>
      if (k =? day_key)%Z then (k, evs ++ [day_event]) :: rest
      else (k, evs) :: by_day_append day_key day_event rest
  end.

Fixpoint by_day_get (day_key : Z) (by_day : ByDay) : option (list ScheduleEvent) :=
  match by_day with
  | [] => None
  | (k, evs) :: rest =>
      if (k =? day_key)%Z then Some evs else by_day_get day_key rest
  end.

(** [while current_start < event_end: ...] for one event; [None] when [fuel]
    passes did not finish the loop. *)
Fixpoint split_event (fuel : nat) (event : ScheduleEvent)
    (current_start : datetime) (by_day : ByDay) : option ByDay :=
  if (current_start <? end_time event)%Z then
    match fuel with
    | O => None
    | S fuel' =>
        let day_key := date_of current_start in
        let day_end := replace_hms current_start 23%Z 59%Z 59%Z in
        let segment_end := Z.min day_end (end_time event) in
        let day_event :=
          mkScheduleEvent current_start segment_end (status event)
            (note event) (location event)
            (miles_start event) (miles_end event) in
        let by_day := by_day_append day_key day_event by_day in
        split_event fuel' event
          (replace_hms (current_start + timedelta_days 1)%Z 0%Z 0%Z 0%Z) by_day
    end
  else Some by_day.

(** Every pass moves [current_start] to the next calendar day, so the days
    an event touches bound the passes of its loop. *)
Definition days_touched (event : ScheduleEvent) : nat :=
  S (Z.to_nat (date_of (end_time event) - date_of (start_time event))).

Fixpoint split_events (evs : list ScheduleEvent) (by_day : ByDay) : option ByDay :=
  match evs with
  | [] => Some by_day
  | event :: rest =>
      match split_event (days_touched event) event (start_time event) by_day with
      | None => None
      | Some by_day' => split_events rest by_day'
      end
  end.

Definition get_schedule_by_day (sch : TripSchedule) : option ByDay :=
  split_events (events sch) [].

Record DailyTotals : Type := mkDailyTotals {
  driving_hours : Q;
  on_duty_hours : Q;
  off_duty_hours : Q;
  sleeper_hours : Q;
  daily_total_miles : Q
}.

Definition add_event_totals (totals : DailyTotals) (event : ScheduleEvent)
  : DailyTotals :=
  let hours := duration_hours event in
  match status event with
  | DRIVING =>
      mkDailyTotals (driving_hours totals + hours) (on_duty_hours totals)
        (off_duty_hours totals) (sleeper_hours totals)
        (daily_total_miles totals + (miles_end event - miles_start event))
  | ON_DUTY_NOT_DRIVING =>
      mkDailyTotals (driving_hours totals) (on_duty_hours totals + hours)
        (off_duty_hours totals) (sleeper_hours totals) (daily_total_miles totals)
  | OFF_DUTY =>
      mkDailyTotals (driving_hours totals) (on_duty_hours totals)
        (off_duty_hours totals + hours) (sleeper_hours totals)
        (daily_total_miles totals)
  | SLEEPER_BERTH =>
      mkDailyTotals (driving_hours totals) (on_duty_hours totals)
        (off_duty_hours totals) (sleeper_hours totals + hours)
        (daily_total_miles totals)
  end.

Definition calculate_daily_totals (evs : list ScheduleEvent) : DailyTotals :=
  fold_left add_event_totals evs (mkDailyTotals 0 0 0 0 0).

(* ------------------------------------------------------------------ *)
(** ** serializers.py and the scheduling path of views.plan_trip *)

Record LocationData : Type := mkLocationData {
  data_lat : option Q;
  data_lng : option Q;
  data_address : option string
}.

(** [LocationSerializer]: the [max_length=500] field check, then
    [validate]. *)
Definition LocationSerializer_is_valid (data : LocationData) : bool :=
  let field_ok :=
    match data_address data with
    | Some a => Nat.leb (String.length a) 500
    | None => true
    end in
  let has_coords :=
    match data_lat data, data_lng data with
    | Some _, Some _ => true
    | _, _ => false
    end in
  let has_address :=
    match data_address data with
    | Some EmptyString | None => false
    | Some _ => true
    end in
  field_ok && (has_coords || has_address).

Record PlanTripRequest : Type := mkPlanTripRequest {
  current : option LocationData;
  pickup : option LocationData;
  dropoff : option LocationData;
  cycleUsedHours : option Q
}.

Record ValidatedData : Type := mkValidatedData {
  v_current : LocationData;
  v_pickup : LocationData;
  v_dropoff : LocationData;
  v_cycleUsedHours : Q
}.

(** [FloatField(min_value=0, max_value=70, default=0)]. *)
Definition cycleUsedHours_field (v : option Q) : option Q :=
  match v with
  | None => Some 0
  | Some x => if Qle_bool 0 x && Qle_bool x 70 then Some x else None
  end.

(** [PlanTripRequestSerializer(data=...).is_valid()]: [None] stands for a
    non-empty [serializer.errors]. *)
Definition PlanTripRequestSerializer (req : PlanTripRequest) : option ValidatedData :=
  match current req, pickup req, dropoff req, cycleUsedHours_field (cycleUsedHours req) with
  | Some c, Some p, Some d, Some h =>
      if LocationSerializer_is_valid c && LocationSerializer_is_valid p
         && LocationSerializer_is_valid d
      then Some (mkValidatedData c p d h) else None
  | _, _, _, _ => None
  end.

Inductive PlanTripResponse : Type :=
  | HTTP_400_BAD_REQUEST
  | HTTP_200 (sch : TripSchedule).

Section Views.

(** The external collaborators of [views.py] (Nominatim and OSRM). *)
Variable geocode_address : string -> option Location.
Variable reverse_geocode : Q -> Q -> string.
Variable calculate_route : Location -> Location -> Location -> option RouteResult.

(** [_parse_location]; [None] stands for the [ValueError]. *)
Definition _parse_location (data : LocationData) : option Location :=
  let address :=
    match data_address data with Some a => a | None => EmptyString end in
  match data_lat data, data_lng data with
  | Some la, Some ln =>
      let address :=
        match address with
        | EmptyString => reverse_geocode la ln
        | a => a
        end in
      Some (mkLocation la ln address)
  | _, _ =>
      match address with
      | EmptyString => None
      | a => geocode_address a
      end
  end.

(** [plan_trip] up to the call of the scheduler. *)
Definition plan_trip (fuel : nat) (now : datetime) (req : PlanTripRequest)
  : outcome PlanTripResponse :=
  match PlanTripRequestSerializer req with
  | None => Returned HTTP_400_BAD_REQUEST
  | Some data =>
      match _parse_location (v_current data), _parse_location (v_pickup data),
            _parse_location (v_dropoff data) with
      | Some current_location, Some pickup_location, Some dropoff_location =>
          match calculate_route current_location pickup_location dropoff_location with
          | None => Returned HTTP_400_BAD_REQUEST
          | Some route =>
              match create_trip_schedule fuel now route current_location
                      pickup_location dropoff_location
                      (v_cycleUsedHours data) None with
              | Returned sch => Returned (HTTP_200 sch)
              | IndexError => IndexError
              | OutOfFuel => OutOfFuel
              end
          end
      | _, _, _ => Returned HTTP_400_BAD_REQUEST
      end
  end.
End Views.

(* ------------------------------------------------------------------ *)
(** ** log_generator.py: the duty-status grid *)

Definition GRID_LEFT : Q := 150.
Definition GRID_RIGHT : Q := 1050.
Definition GRID_TOP : Q := 280.
Definition GRID_BOTTOM : Q := 480.
Definition GRID_WIDTH : Q := GRID_RIGHT - GRID_LEFT.
Definition GRID_HEIGHT : Q := GRID_BOTTOM - GRID_TOP.

Definition ROW_HEIGHT : Q := GRID_HEIGHT / 4.

Definition ROW_POSITIONS (s : DutyStatus) : Q :=
  match s with
  | OFF_DUTY => GRID_TOP + ROW_HEIGHT * (1 # 2)
  | SLEEPER_BERTH => GRID_TOP + ROW_HEIGHT * (3 # 2)
  | DRIVING => GRID_TOP + ROW_HEIGHT * (5 # 2)
  | ON_DUTY_NOT_DRIVING => GRID_TOP + ROW_HEIGHT * (7 # 2)
  end.

Definition HOURS_IN_DAY : Q := 24.
Definition HOUR_WIDTH : Q := GRID_WIDTH / HOURS_IN_DAY.

Definition LINE_WIDTH_DUTY : Z := 3.
Definition LINE_WIDTH_VERTICAL : Z := 2.

(** [time.hour], [time.minute] and [time.second]. *)
Definition hour_of (t : datetime) : Z := ((t mod US_PER_DAY) / US_PER_HOUR)%Z.
Definition minute_of (t : datetime) : Z := ((t mod US_PER_HOUR) / US_PER_MINUTE)%Z.
Definition second_of (t : datetime) : Z := ((t mod US_PER_MINUTE) / US_PER_SECOND)%Z.

(** [time_to_x_coordinate]. *)
Definition time_to_x_coordinate (time : datetime) : Q :=
  let hour :=
    inject_Z (hour_of time) + inject_Z (minute_of time) / 60
    + inject_Z (second_of time) / 3600 in
  GRID_LEFT + hour * HOUR_WIDTH.

(** [sorted(events, key=lambda e: e.start_time)]: the sort is stable, so it
    is the insertion sort that puts an event before the later events of the
    same start time. *)
Fixpoint insert_by_start (e : ScheduleEvent) (l : list ScheduleEvent)
  : list ScheduleEvent :=
  match l with
  | [] => [e]
  | x :: rest =>
      if (start_time e <=? start_time x)%Z then e :: l
      else x :: insert_by_start e rest
  end.

Definition sorted_by_start (evs : list ScheduleEvent) : list ScheduleEvent :=
  fold_right insert_by_start [] evs.

(** A call of [draw.line([from, to], width=...)]. *)
Record Line : Type := mkLine {
  line_from : Q * Q;
  line_to : Q * Q;
  line_width : Z
}.

(** The loop state of [draw_duty_status_lines], with the lines drawn so
    far. *)
Record Pen : Type := mkPen {
  prev_status : option DutyStatus;
  prev_x : option Q;
  drawn : list Line
}.

(** One pass of the loop of [draw_duty_status_lines]. *)
Definition draw_event (pen : Pen) (event : ScheduleEvent) : Pen :=
  let start_x := time_to_x_coordinate (start_time event) in
  let end_x := time_to_x_coordinate (end_time event) in
  let start_x := py_max GRID_LEFT (py_min start_x GRID_RIGHT) in
  let end_x := py_max GRID_LEFT (py_min end_x GRID_RIGHT) in
  let y := ROW_POSITIONS (status event) in
  let lines := drawn pen in
  let lines :=
    match prev_status pen with
    | Some ps =>
        if negb (DutyStatus_eqb ps (status event)) then
          match prev_x pen with
          | Some px =>
              lines ++ [mkLine (px, ROW_POSITIONS ps) (start_x, y)
                          LINE_WIDTH_VERTICAL]
          | None => lines
          end
        else lines
    | None => lines
    end in
  let lines :=
    if Qltb start_x end_x
    then lines ++ [mkLine (start_x, y) (end_x, y) LINE_WIDTH_DUTY]
    else lines in
  mkPen (Some (status event)) (Some end_x) lines.

(** [draw_duty_status_lines]: the lines it draws, in order. *)
Definition draw_duty_status_lines (events : list ScheduleEvent) : list Line :=
  drawn (fold_left draw_event (sorted_by_start events) (mkPen None None [])).

(* ------------------------------------------------------------------ *)
(** ** Example inputs *)

Definition leg_of_miles (d : Q) : RouteLeg := mkRouteLeg "" "" d 0 "".

Definition route_of_miles (ds : list Q) : RouteResult :=
  mkRouteResult (map leg_of_miles ds) 0 0 "".

Definition depot : Location := mkLocation 0 0 "Depot".

(** A trip over the given leg distances, starting at time 0 with
    [cycle_used_hours] hours already on the cycle. *)
Definition trip (fuel : nat) (ds : list Q) (cycle_used_hours : Q)
  : outcome TripSchedule :=
  create_trip_schedule fuel 0%Z (route_of_miles ds) depot depot depot
    cycle_used_hours (Some 0%Z).

(* ------------------------------------------------------------------ *)
(** ** Properties of an event log *)

(** The events tile the interval from [t0] to [t1]: the first starts at
    [t0], each next one starts where the previous one ended, and the last
    ends at [t1]. *)
Fixpoint tiles (t0 : datetime) (evs : list ScheduleEvent) (t1 : datetime) : Prop :=
  match evs with
  | [] => t0 = t1
  | e :: rest => start_time e = t0 /\ tiles (end_time e) rest t1
  end.

Definition non_driving (e : ScheduleEvent) : bool :=
  negb (DutyStatus_eqb (status e) DRIVING).

(** The hours of driving a DRIVING event stands for: its miles at the
    average speed (the scheduler's [driving_hours]). *)
Definition event_driving_hours (e : ScheduleEvent) : Q :=
  (miles_end e - miles_start e) / AVG_SPEED_MPH.

(** A stop and the event emitted with it. *)
Definition stop_matches_event (st : Stop) (e : ScheduleEvent) : Prop :=
  status e <> DRIVING
  /\ duration_minutes e == inject_Z (stop_duration_minutes st)
  /\ miles_start e = miles_end e
  /\ mile_marker st = Some (miles_start e).

(** An event has positive length unless it is a DRIVING event of at most
    half a microsecond. *)
Definition event_has_length (e : ScheduleEvent) : Prop :=
  (status e <> DRIVING -> (start_time e < end_time e)%Z)
  /\ (status e = DRIVING ->
      1 # 2 < event_driving_hours e * inject_Z US_PER_HOUR ->
      (start_time e < end_time e)%Z).

(** What the scheduler maintains about the log it is building. *)
Record log_ok (t0 : datetime) (s : DriveState) : Prop := mk_log_ok {
  log_start : trip_start_time (schedule s) = Some t0;
  log_tiles : tiles t0 (events (schedule s)) (current_time s);
  log_forward :
    Forall (fun e => (start_time e <= end_time e)%Z) (events (schedule s));
  log_length : Forall event_has_length (events (schedule s));
  log_stops :
    Forall2 stop_matches_event (stops (schedule s))
      (filter non_driving (events (schedule s)))
}.

(** The state a leg's drive loop starts from. *)
Definition enter_leg (leg_data : LegData) (s : DriveState) : DriveState :=
  {| schedule := schedule s; current_time := current_time s;
     hos_state := hos_state s; current_miles := current_miles s;
     miles_to_drive := distance_miles (leg leg_data); leg_miles_driven := 0 |}.

(** The start time a run uses. *)
Definition effective_start (now : datetime) (start_time : option datetime) : datetime :=
  match start_time with
  | None => default_start_time now
  | Some t => t
  end.

(** Scenario 1 of the specification: two legs of 50 miles on a fresh
    cycle. *)
Definition short_trip : outcome TripSchedule := trip 10 [50; 50] 0.

Definition short_trip_schedule : TripSchedule :=
  Eval vm_compute in
    match short_trip with
    | Returned sch => sch
    | _ => mkTripSchedule [] [] 0 0 0 0 None None
    end.

(** A first leg that stops a billionth of a mile short of exhausting the
    11 hours of driving, then a second leg. *)
Definition near_limit_trip : outcome TripSchedule :=
  trip 20 [604999999999 # 1000000000; 100] 0.

(* ------------------------------------------------------------------ *)
(** ** Day segmentation *)

(** A sub-event carries its parent's status, note, location and both mile
    fields. *)
Definition copies_parent (d e : ScheduleEvent) : Prop :=
  status d = status e /\ note d = note e /\ location d = location e
  /\ miles_start d = miles_start e /\ miles_end d = miles_end e.

(** Every entry of a by-day map is keyed by the day its sub-events start on,
    and every sub-event is cut from an event of [evs]. *)
Definition by_day_ok (evs : list ScheduleEvent) (by_day : ByDay) : Prop :=
  forall k ds d, In (k, ds) by_day -> In d ds ->
    k = date_of (start_time d)
    /\ exists e, In e evs /\ copies_parent d e
         /\ (start_time e <= start_time d)%Z /\ (end_time d <= end_time e)%Z.

(** Scenario 4 of the specification: a DRIVING event from 22:00 on day 0 to
    02:00 on day 1, covering miles 0 to 220. *)
Definition clock (day h m s : Z) : datetime :=
  (day * US_PER_DAY + h * US_PER_HOUR + m * US_PER_MINUTE + s * US_PER_SECOND)%Z.

Definition night_drive : ScheduleEvent :=
  mkScheduleEvent (clock 0 22 0 0) (clock 1 2 0 0) DRIVING
    "Driving to Pickup" "Mile 0 - 220" 0 220.


(** The sub-event one pass of the loop files. *)
Definition day_piece (event : ScheduleEvent) (current_start : datetime) : ScheduleEvent :=
  mkScheduleEvent current_start
    (Z.min (replace_hms current_start 23%Z 59%Z 59%Z) (end_time event))
    (status event) (note event) (location event)
    (miles_start event) (miles_end event).

(** [d] is one of the sub-events filed under day [k]. *)
Definition has_sub (by_day : ByDay) (k : Z) (d : ScheduleEvent) : Prop :=
  exists ds, In (k, ds) by_day /\ In d ds.

(** The instant the day-splitting loop resumes from on the next day. *)
Definition next_day_start (t : datetime) : datetime :=
  replace_hms (t + timedelta_days 1)%Z 0%Z 0%Z 0%Z.

(** The event runs past the start of the day after the one it starts on. *)
Definition crosses_midnight (e : ScheduleEvent) : Prop :=
  (start_time e < end_time e)%Z /\ (next_day_start (start_time e) < end_time e)%Z.

(* ------------------------------------------------------------------ *)
(** ** Fuel stops *)










(* ------------------------------------------------------------------ *)
(** ** Inputs the scheduler does not check *)

(** A route whose first leg has a negative distance. *)
Definition negative_leg_trip : outcome TripSchedule := trip 5 [-5; 10] 0.

(* ------------------------------------------------------------------ *)
(** ** Cycle exhaustion *)






(* ------------------------------------------------------------------ *)
(** ** Auditing a schedule against the HOS limits *)





(** The state a trip starts from. *)
Definition initial_hos (cycle_used_hours : Q) : HOSState :=
  start_new_shift (mkHOSState 0 0 0 0 cycle_used_hours false).

(** Two HOS states with the same shift counters. *)
Definition hos_equiv (a b : HOSState) : Prop :=
  driving_hours_in_shift a == driving_hours_in_shift b
  /\ duty_window_hours a == duty_window_hours b
  /\ driving_since_last_break a == driving_since_last_break b
  /\ shift_active a = shift_active b.





(* ------------------------------------------------------------------ *)
(** ** Well-formed HOS states *)

(** The counters of a shift are nested: the driving since the last break
    is part of the shift's driving, which is part of its on-duty time, which
    is part of its duty window. *)
Definition hos_nested (h : HOSState) : Prop :=
  0 <= driving_since_last_break h
  /\ driving_since_last_break h <= driving_hours_in_shift h
  /\ driving_hours_in_shift h <= on_duty_hours_in_shift h
  /\ on_duty_hours_in_shift h <= duty_window_hours h.

(* ------------------------------------------------------------------ *)
(** ** Sums over a log *)

Definition Qsum (l : list Q) : Q := fold_right Qplus 0 l.







(** A stop the drive loop inserts: fuel, rest break or off-duty reset. *)
Definition compliance_stop (st : Stop) : Prop :=
  stop_type st = FUEL \/ stop_type st = REST_BREAK \/ stop_type st = STOP_OFF_DUTY.

(* ------------------------------------------------------------------ *)
(** ** The stages of a scheduling run *)

(** The drive state a trip starts from. *)
Definition trip_start_state (t0 : datetime) (cycle_used_hours : Q) : DriveState :=
  mkDriveState (mkTripSchedule [] [] 0 0 0 0 (Some t0) None) t0
    (initial_hos cycle_used_hours) 0 0 0.

(** The terminal stops, as [process_leg] applies them. *)
Definition after_pickup (loc : Location) (s : DriveState) : DriveState :=
  store_stop s (_add_pickup_stop (schedule s) (current_time s) (hos_state s)
                  (current_miles s) loc).

Definition after_dropoff (loc : Location) (s : DriveState) : DriveState :=
  store_stop s (_add_dropoff_stop (schedule s) (current_time s) (hos_state s)
                  (current_miles s) loc).


(** The stops of [s] are those of [s0] followed by compliance stops only. *)
Definition only_compliance_since (s0 s : DriveState) : Prop :=
  exists added,
    stops (schedule s) = stops (schedule s0) ++ added
    /\ Forall compliance_stop added.

(** The distance a leg of [d] miles makes the scheduler drive. *)
Definition miles_to_cover (d : Q) : Q := Qmax 0 d.

(** On a leg entered at [s0]: the position and the distance left add up to
    the mile the leg ends at. *)
Definition covering (s0 s : DriveState) : Prop :=
  0 <= miles_to_drive s
  /\ current_miles s + miles_to_drive s
       == current_miles s0 + miles_to_drive s0.

(* ------------------------------------------------------------------ *)
(** ** Termination of the drive loop *)






(* ------------------------------------------------------------------ *)
(** ** More on day segmentation *)

(** A piece lies within day [k] and runs forward. *)
Definition within_day (k : Z) (d : ScheduleEvent) : Prop :=
  date_of (start_time d) = k /\ date_of (end_time d) = k
  /\ (start_time d <= end_time d)%Z.

(** Every piece of a by-day map lies within the day it is filed under. *)
Definition pieces_within_days (by_day : ByDay) : Prop :=
  forall k ds d, In (k, ds) by_day -> In d ds -> within_day k d.

(** The event lies within one calendar day: it ends no later than
    23:59:59 of the day it starts on. *)
Definition single_day (e : ScheduleEvent) : Prop :=
  (start_time e < end_time e)%Z
  /\ (end_time e <= replace_hms (start_time e) 23%Z 59%Z 59%Z)%Z.

(** The events of positive length. *)
Definition has_duration (e : ScheduleEvent) : bool :=
  (start_time e <? end_time e)%Z.

(** The hours the four duty statuses add up to. *)
Definition hours_accounted (t : DailyTotals) : Q :=
  driving_hours t + on_duty_hours t + off_duty_hours t + sleeper_hours t.

Definition driven_miles_of (e : ScheduleEvent) : Q :=
  match status e with DRIVING => miles_end e - miles_start e | _ => 0 end.

(** The schedule with another list of events. *)
Definition with_events (evs : list ScheduleEvent) (sch : TripSchedule)
  : TripSchedule :=
  mkTripSchedule evs (stops sch) (total_driving_hours sch)
    (total_on_duty_hours sch) (total_off_duty_hours sch) (total_miles sch)
    (trip_start_time sch) (trip_end_time sch).

(** Midnight at the start of day [k]. *)
Definition day_start (k : Z) : datetime := (k * US_PER_DAY)%Z.

(** The pieces run forward and one after the other, none before [lo], and
    all are over by [hi]. *)
Fixpoint packed (lo : datetime) (ds : list ScheduleEvent) (hi : datetime) : Prop :=
  match ds with
  | [] => (lo <= hi)%Z
  | d :: rest =>
      (lo <= start_time d)%Z /\ (start_time d <= end_time d)%Z
      /\ packed (end_time d) rest hi
  end.

(** Every day's pieces are packed into that day and are over by the
    frontier [front]. *)
Definition days_packed (front : datetime) (by_day : ByDay) : Prop :=
  forall k ds, In (k, ds) by_day ->
    packed (day_start k) ds (Z.min front (day_start (k + 1) - 1)).

(** A trip of two 600-mile legs; it runs over three days. *)
Definition three_day_trip : outcome TripSchedule := trip 20 [600; 600] 0.

Definition three_day_schedule : TripSchedule :=
  Eval vm_compute in
    match three_day_trip with
    | Returned sch => sch
    | _ => mkTripSchedule [] [] 0 0 0 0 None None
    end.

(** The whole seconds since midnight. *)
Definition second_of_day (t : datetime) : Z :=
  ((t mod US_PER_DAY) / US_PER_SECOND)%Z.

(** The horizontal lines of the duty periods among the lines drawn. *)
Definition duty_lines (ls : list Line) : list Line :=
  filter (fun l => (line_width l =? LINE_WIDTH_DUTY)%Z) ls.

(** The lines run from left to right, each of positive length and none
    starting before the previous one ended, between [lo] and [hi]. *)
Fixpoint left_to_right (lo : Q) (ls : list Line) (hi : Q) : Prop :=
  match ls with
  | [] => lo <= hi
  | l :: rest =>
      lo <= fst (line_from l) /\ fst (line_from l) < fst (line_to l)
      /\ left_to_right (fst (line_to l)) rest hi
  end.



(** A location given by an address only. *)
Definition address_only : LocationData :=
  mkLocationData None None (Some "Nowhere"%string).





(* ------------------------------------------------------------------ *)
(** ** Boolean comparisons on rationals *)

Lemma Qltb_true (a b : Q) : Qltb a b = true <-> a < b.
Proof.
  unfold Qltb. rewrite negb_true_iff.
  split; intro H.
  - apply Qnot_le_lt. intro L. apply Qle_bool_iff in L. congruence.
  - destruct (Qle_bool b a) eqn:E; [|reflexivity].
    apply Qle_bool_iff in E. exfalso. apply (Qlt_not_le _ _ H E).
Qed.

Lemma Qltb_false (a b : Q) : Qltb a b = false <-> b <= a.
Proof.
  unfold Qltb. rewrite negb_false_iff. apply Qle_bool_iff.
Qed.

Lemma Qle_bool_false (a b : Q) : Qle_bool a b = false <-> b < a.
Proof.
  split; intro H.
  - apply Qnot_le_lt. intro L. apply Qle_bool_iff in L. congruence.
  - destruct (Qle_bool a b) eqn:E; [|reflexivity].
    apply Qle_bool_iff in E. exfalso. apply (Qlt_not_le _ _ H E).
Qed.

(** Case split on every boolean comparison in sight, leaving the
    corresponding order facts as hypotheses. *)
Ltac qcases :=
  repeat match goal with
  | |- context [Qltb ?a ?b] =>
      let E := fresh "E" in
      destruct (Qltb a b) eqn:E;
      [apply Qltb_true in E | apply Qltb_false in E]
  | |- context [Qle_bool ?a ?b] =>
      let E := fresh "E" in
      destruct (Qle_bool a b) eqn:E;
      [apply Qle_bool_iff in E | apply Qle_bool_false in E]
  | _ : context [Qltb ?a ?b] |- _ =>
      let E := fresh "E" in
      destruct (Qltb a b) eqn:E;
      [apply Qltb_true in E | apply Qltb_false in E]
  | _ : context [Qle_bool ?a ?b] |- _ =>
      let E := fresh "E" in
      destruct (Qle_bool a b) eqn:E;
      [apply Qle_bool_iff in E | apply Qle_bool_false in E]
  end.


Lemma py_max_Qmax (a b : Q) : py_max a b == Qmax a b.
Proof.
  unfold py_max. qcases.
  - rewrite Q.max_r; [reflexivity | lra].
  - rewrite Q.max_l; [reflexivity | lra].
Qed.

Lemma py_min_Qmin (a b : Q) : py_min a b == Qmin a b.
Proof.
  unfold py_min. qcases.
  - rewrite Q.min_r; [reflexivity | lra].
  - rewrite Q.min_l; [reflexivity | lra].
Qed.

Lemma py_max_spec (a b : Q) :
  (a < b /\ py_max a b = b) \/ (b <= a /\ py_max a b = a).
Proof. unfold py_max. qcases; [left | right]; split; auto. Qed.

Lemma py_min_spec (a b : Q) :
  (b < a /\ py_min a b = b) \/ (a <= b /\ py_min a b = a).
Proof. unfold py_min. qcases; [left | right]; split; auto. Qed.

(* ------------------------------------------------------------------ *)
(** ** The continuous-drive limit *)

(** C3: the maximum further continuous driving is
    max(0, min(drivingRemaining, windowRemaining, cycleRemaining,
    hoursUntilBreakRequired)), each remaining budget being its cap (11, 14,
    70 and 8 hours) minus the consumed counter, floored at 0. *)
Theorem max_continuous_driving_is_binding_minimum (s : HOSState) :
  get_max_continuous_driving_hours s ==
    Qmax 0 (Qmin (Qmin (Qmin (driving_hours_remaining s)
                             (duty_window_remaining s))
                       (cycle_hours_remaining s))
                 (hours_until_break_required s))
  /\ driving_hours_remaining s == Qmax 0 (11 - driving_hours_in_shift s)
  /\ duty_window_remaining s == Qmax 0 (14 - duty_window_hours s)
  /\ cycle_hours_remaining s == Qmax 0 (70 - cycle_hours_used s)
  /\ hours_until_break_required s == Qmax 0 (8 - driving_since_last_break s).
Proof.
  repeat split; try apply py_max_Qmax.
  unfold get_max_continuous_driving_hours, py_min_list; simpl.
  rewrite py_max_Qmax.
  apply Q.max_compat; [reflexivity|].
  rewrite py_min_Qmin.
  apply Q.min_compat; [|reflexivity].
  rewrite py_min_Qmin.
  apply Q.min_compat; [|reflexivity].
  apply py_min_Qmin.
Qed.

(* ------------------------------------------------------------------ *)
(** ** Off-duty time *)

Lemma add_off_duty_time_fields_aux (state : HOSState) (hours : Q) :
  (10 <= hours ->
     add_off_duty_time state hours =
       mkHOSState 0 0 0 0 (cycle_hours_used state) false)
  /\ (hours < 10 ->
     add_off_duty_time state hours =
       mkHOSState (driving_hours_in_shift state)
                  (on_duty_hours_in_shift state)
                  (duty_window_hours state + hours)
                  0
                  (cycle_hours_used state)
                  (shift_active state)).
Proof.
  unfold add_off_duty_time, OFF_DUTY_RESET_HOURS.
  split; intro H; qcases; try reflexivity; lra.
Qed.

(** C6: off-duty time of at least 10 hours zeroes the four shift counters,
    clears shiftActive and keeps cycleHoursUsed; a shorter one adds the hours
    to dutyWindowHours only, zeroes drivingSinceLastBreak and keeps every
    other field. *)
Theorem add_off_duty_time_spec (state : HOSState) (hours : Q) :
  (10 <= hours ->
     driving_hours_in_shift (add_off_duty_time state hours) = 0
     /\ on_duty_hours_in_shift (add_off_duty_time state hours) = 0
     /\ duty_window_hours (add_off_duty_time state hours) = 0
     /\ driving_since_last_break (add_off_duty_time state hours) = 0
     /\ shift_active (add_off_duty_time state hours) = false
     /\ cycle_hours_used (add_off_duty_time state hours)
          = cycle_hours_used state)
  /\ (hours < 10 ->
     duty_window_hours (add_off_duty_time state hours)
       = duty_window_hours state + hours
     /\ driving_since_last_break (add_off_duty_time state hours) = 0
     /\ driving_hours_in_shift (add_off_duty_time state hours)
          = driving_hours_in_shift state
     /\ on_duty_hours_in_shift (add_off_duty_time state hours)
          = on_duty_hours_in_shift state
     /\ cycle_hours_used (add_off_duty_time state hours)
          = cycle_hours_used state
     /\ shift_active (add_off_duty_time state hours) = shift_active state).
Proof.
  destruct (add_off_duty_time_fields_aux state hours) as [L S].
  split; intro H; [rewrite (L H) | rewrite (S H)]; repeat split.
Qed.

Lemma add_off_duty_time_spec_witness :
  (let r := add_off_duty_time (mkHOSState 11 12 13 3 40 true) 10 in
   driving_hours_in_shift r = 0 /\ on_duty_hours_in_shift r = 0
   /\ duty_window_hours r = 0 /\ driving_since_last_break r = 0
   /\ shift_active r = false /\ cycle_hours_used r = 40)
  /\ (let r := add_off_duty_time (mkHOSState 8 8 8 8 40 true) (1 # 2) in
      duty_window_hours r = 8 + (1 # 2) /\ driving_since_last_break r = 0
      /\ driving_hours_in_shift r = 8 /\ on_duty_hours_in_shift r = 8
      /\ cycle_hours_used r = 40 /\ shift_active r = true).
Proof.
  split.
  - apply (proj1 (add_off_duty_time_spec (mkHOSState 11 12 13 3 40 true) 10)).
    vm_compute. discriminate.
  - apply (proj2 (add_off_duty_time_spec (mkHOSState 8 8 8 8 40 true) (1 # 2))).
    vm_compute. reflexivity.
Defined.

(* ------------------------------------------------------------------ *)
(** ** Rounding *)

Lemma Qfloor_nonneg (q : Q) : 0 <= q -> (0 <= Qfloor q)%Z.
Proof.
  intro H. change 0%Z with (Qfloor 0). apply Qfloor_resp_le. exact H.
Qed.

Lemma round_half_even_bounds (q : Q) :
  (Qfloor q <= round_half_even q <= Qfloor q + 1)%Z.
Proof.
  unfold round_half_even.
  destruct (Qltb _ _); [lia|].
  destruct (Qltb _ _); [lia|].
  destruct (Z.even _); lia.
Qed.

Lemma round_half_even_nonneg (q : Q) : 0 <= q -> (0 <= round_half_even q)%Z.
Proof.
  intro H. pose proof (Qfloor_nonneg q H). pose proof (round_half_even_bounds q). lia.
Qed.

Lemma round_half_even_pos (q : Q) : 1 # 2 < q -> (0 < round_half_even q)%Z.
Proof.
  intro H.
  assert (F : (0 <= Qfloor q)%Z) by (apply Qfloor_nonneg; lra).
  pose proof (round_half_even_bounds q) as B.
  destruct (Z.eq_dec (Qfloor q) 0) as [Z0 | NZ]; [|lia].
  unfold round_half_even. rewrite Z0.
  replace (q - inject_Z 0) with (q - 0) by reflexivity.
  qcases; try lia; lra.
Qed.

Lemma timedelta_hours_nonneg (h : Q) : 0 <= h -> (0 <= timedelta_hours h)%Z.
Proof.
  intro H. apply round_half_even_nonneg.
  change (inject_Z US_PER_HOUR) with 3600000000. lra.
Qed.

(* ------------------------------------------------------------------ *)
(** ** The log invariant *)

Lemma tiles_snoc (t0 t1 : datetime) (evs : list ScheduleEvent) (e : ScheduleEvent) :
  tiles t0 evs t1 -> start_time e = t1 -> tiles t0 (evs ++ [e]) (end_time e).
Proof.
  revert t0. induction evs as [|a evs IH]; simpl; intros t0 H S.
  - subst. split; reflexivity.
  - destruct H as [Ha Hr]. split; [exact Ha|]. apply IH; assumption.
Qed.

Lemma Forall_snoc {A} (P : A -> Prop) (l : list A) (x : A) :
  Forall P l -> P x -> Forall P (l ++ [x]).
Proof.
  intros Hl Hx. apply Forall_app. split; [exact Hl | constructor; [exact Hx | constructor]].
Qed.

(** Appending a stop event together with its stop keeps the log
    well-formed. *)
Lemma log_ok_stop (t0 : datetime) (s : DriveState)
    (r : TripSchedule * (datetime * HOSState)) (e : ScheduleEvent) (st : Stop) :
  log_ok t0 s ->
  events (fst r) = events (schedule s) ++ [e] ->
  stops (fst r) = stops (schedule s) ++ [st] ->
  trip_start_time (fst r) = trip_start_time (schedule s) ->
  start_time e = current_time s ->
  end_time e = fst (snd r) ->
  (start_time e < end_time e)%Z ->
  stop_matches_event st e ->
  log_ok t0 (store_stop s r).
Proof.
  intros [H1 H2 H3 H4 H5] He Hs Ht Hb Hend Hlt Hm.
  assert (ND : non_driving e = true).
  { destruct Hm as [Hm _]. unfold non_driving. destruct (status e); try reflexivity.
    exfalso. apply Hm. reflexivity. }
  constructor; simpl.
  - rewrite Ht. exact H1.
  - rewrite He, <- Hend. apply tiles_snoc with (t1 := current_time s); assumption.
  - rewrite He. apply Forall_snoc; [assumption | lia].
  - rewrite He. apply Forall_snoc; [assumption|].
    split; intros; [exact Hlt | exfalso; apply (proj1 Hm); assumption].
  - rewrite He, Hs, filter_app. simpl. rewrite ND.
    apply Forall2_app; [assumption|]. constructor; [exact Hm | constructor].
Qed.

Lemma minutes_between_add (t : datetime) (k n : Z) :
  k = (n * US_PER_MINUTE)%Z -> minutes_between t (t + k)%Z == inject_Z n.
Proof.
  intros ->. unfold minutes_between.
  replace (t + n * US_PER_MINUTE - t)%Z with (n * US_PER_MINUTE)%Z by lia.
  rewrite inject_Z_mult. field. discriminate.
Qed.

Ltac stop_preserves_log H :=
  eapply log_ok_stop;
  [ exact H | reflexivity | reflexivity | reflexivity | reflexivity | reflexivity
  | simpl; try (vm_compute timedelta_hours); unfold timedelta_minutes; simpl; lia
  | split; [discriminate|];
    split; [| split; reflexivity];
    unfold duration_minutes; simpl start_time; simpl end_time;
    apply minutes_between_add; vm_compute; reflexivity ].

Lemma log_ok_pickup (t0 : datetime) (s : DriveState) (loc : Location) :
  log_ok t0 s ->
  log_ok t0 (store_stop s (_add_pickup_stop (schedule s) (current_time s)
                             (hos_state s) (current_miles s) loc)).
Proof. intro H. stop_preserves_log H. Qed.

Lemma log_ok_dropoff (t0 : datetime) (s : DriveState) (loc : Location) :
  log_ok t0 s ->
  log_ok t0 (store_stop s (_add_dropoff_stop (schedule s) (current_time s)
                             (hos_state s) (current_miles s) loc)).
Proof. intro H. stop_preserves_log H. Qed.

Lemma log_ok_fuel (t0 : datetime) (s : DriveState) (l : string) :
  log_ok t0 s ->
  log_ok t0 (store_stop s (_add_fuel_stop (schedule s) (current_time s)
                             (hos_state s) (current_miles s) l)).
Proof. intro H. stop_preserves_log H. Qed.

Lemma log_ok_rest_break (t0 : datetime) (s : DriveState) (l : string) :
  log_ok t0 s ->
  log_ok t0 (store_stop s (_add_rest_break (schedule s) (current_time s)
                             (hos_state s) (current_miles s) l)).
Proof. intro H. stop_preserves_log H. Qed.

Lemma log_ok_off_duty_reset (t0 : datetime) (s : DriveState) (l : string) :
  log_ok t0 s ->
  log_ok t0 (store_stop s (_add_off_duty_reset (schedule s) (current_time s)
                             (hos_state s) (current_miles s) l)).
Proof.
  intro H. stop_preserves_log H.
Qed.

Lemma log_ok_drive_segment (t0 : datetime) (name : string) (seg : Q) (s : DriveState) :
  0 <= seg -> log_ok t0 s -> log_ok t0 (drive_segment name seg s).
Proof.
  intros Hseg [H1 H2 H3 H4 H5].
  assert (Hfwd : (0 <= timedelta_hours (seg / AVG_SPEED_MPH))%Z).
  { apply timedelta_hours_nonneg. unfold AVG_SPEED_MPH. 
    apply Qle_shift_div_l; lra. }
  constructor; simpl.
  - exact H1.
  - match goal with |- tiles _ (_ ++ [?e]) _ =>
      apply (tiles_snoc t0 (current_time s) _ e); [exact H2 | reflexivity] end.
  - apply Forall_snoc; [assumption | simpl; lia].
  - apply Forall_snoc; [assumption|].
    split; simpl; [intro N; exfalso; apply N; reflexivity|].
    intros _ Hlong.
    assert (0 < timedelta_hours (seg / AVG_SPEED_MPH))%Z; [|lia].
    apply round_half_even_pos.
    unfold event_driving_hours in Hlong. simpl in Hlong.
    unfold AVG_SPEED_MPH in *.
    change (inject_Z US_PER_HOUR) with 3600000000 in *.
    unfold Qdiv in *. lra.
  - rewrite filter_app. simpl. rewrite app_nil_r. exact H5.
Qed.

Lemma log_ok_check_fuel_stop (t0 : datetime) (seg : Q) (s : DriveState) :
  log_ok t0 s -> log_ok t0 (check_fuel_stop seg s).
Proof.
  intro H. unfold check_fuel_stop.
  destruct (_ && _); [apply log_ok_fuel|]; exact H.
Qed.

Lemma log_ok_check_rest_break (t0 : datetime) (s : DriveState) :
  log_ok t0 s -> log_ok t0 (check_rest_break s).
Proof.
  intro H. unfold check_rest_break.
  destruct (_ && _); [apply log_ok_rest_break|]; exact H.
Qed.

Lemma log_ok_check_reset (t0 : datetime) (s : DriveState) :
  log_ok t0 s -> log_ok t0 (check_reset s).
Proof.
  intro H. unfold check_reset.
  destruct (_ && _); [apply log_ok_off_duty_reset|]; exact H.
Qed.

Lemma log_ok_cannot_drive (t0 : datetime) (s : DriveState) :
  log_ok t0 s -> log_ok t0 (cannot_drive s).
Proof.
  intro H. unfold cannot_drive.
  destruct (needs_30_min_break _); [apply log_ok_rest_break; exact H|].
  destruct (_ || _); [apply log_ok_off_duty_reset; exact H|].
  destruct (Qle_bool _ _); [apply log_ok_off_duty_reset|]; exact H.
Qed.

Lemma log_ok_drive_iteration (t0 : datetime) (name : string) (s : DriveState) :
  log_ok t0 s -> log_ok t0 (drive_iteration name s).
Proof.
  intro H. unfold drive_iteration.
  destruct (Qle_bool (miles_this_segment s) 0) eqn:E.
  - apply log_ok_cannot_drive; exact H.
  - apply Qle_bool_false in E.
    apply log_ok_check_reset, log_ok_check_rest_break, log_ok_check_fuel_stop,
      log_ok_drive_segment; [lra | exact H].
Qed.

(* ------------------------------------------------------------------ *)
(** ** Induction over a scheduling run *)

Lemma drive_loop_invariant (I : DriveState -> Prop) (name : string) :
  (forall s, I s -> 0 < miles_to_drive s -> I (drive_iteration name s)) ->
  forall fuel s s',
    I s -> drive_loop fuel name s = Some s' ->
    I s' /\ miles_to_drive s' <= 0.
Proof.
  intros Step fuel. induction fuel as [|fuel IH]; intros s s' Hs Hrun; simpl in Hrun.
  - destruct (Qltb 0 (miles_to_drive s)) eqn:E; [discriminate|].
    apply Qltb_false in E. injection Hrun as <-. split; assumption.
  - destruct (Qltb 0 (miles_to_drive s)) eqn:E.
    + apply Qltb_true in E. apply (IH _ _ (Step s Hs E) Hrun).
    + apply Qltb_false in E. injection Hrun as <-. split; assumption.
Qed.

Lemma log_ok_enter_leg (t0 : datetime) (leg_data : LegData) (s : DriveState) :
  log_ok t0 s -> log_ok t0 (enter_leg leg_data s).
Proof. intros [H1 H2 H3 H4 H5]. constructor; assumption. Qed.

Lemma log_ok_process_leg (t0 : datetime) (fuel : nat) (p d : Location)
    (leg_data : LegData) (s s' : DriveState) :
  log_ok t0 s -> process_leg fuel p d leg_data s = Some s' -> log_ok t0 s'.
Proof.
  intros H Hrun. unfold process_leg in Hrun.
  fold (enter_leg leg_data s) in Hrun.
  destruct (drive_loop _ _ _) as [s1|] eqn:L; [|discriminate].
  apply (drive_loop_invariant (log_ok t0)) in L;
    [| intros; apply log_ok_drive_iteration; assumption
     | apply log_ok_enter_leg; exact H].
  destruct L as [L _].
  destruct (StopType_eqb _ _); injection Hrun as <-;
    [apply log_ok_pickup | apply log_ok_dropoff]; exact L.
Qed.

Lemma log_ok_process_legs (t0 : datetime) (fuel : nat) (p d : Location)
    (legs_data : list LegData) (s s' : DriveState) :
  log_ok t0 s -> process_legs fuel p d legs_data s = Some s' -> log_ok t0 s'.
Proof.
  revert s. induction legs_data as [|l rest IH]; intros s H Hrun; simpl in Hrun.
  - injection Hrun as <-. exact H.
  - destruct (process_leg _ _ _ _ _) as [s1|] eqn:L; [|discriminate].
    apply (IH s1); [|exact Hrun]. eapply log_ok_process_leg; eassumption.
Qed.

(** A returned schedule is the log of a final drive state, closed with the
    total miles and the end time. *)
Lemma create_trip_schedule_returns (fuel : nat) (now : datetime)
    (route : RouteResult) (c p d : Location) (cycle : Q)
    (start : option datetime) (sch : TripSchedule) :
  create_trip_schedule fuel now route c p d cycle start = Returned sch ->
  exists s,
    log_ok (effective_start now start) s
    /\ sch = finish_schedule (current_miles s) (current_time s) (schedule s)
    /\ events (schedule s) <> [].
Proof.
  unfold create_trip_schedule. fold (effective_start now start).
  destruct (nth_error (legs route) 0) as [l0|]; [|discriminate].
  destruct (nth_error (legs route) 1) as [l1|]; [|discriminate].
  destruct (process_legs _ _ _ _ _) as [s|] eqn:R; [|discriminate].
  intro H. injection H as <-. exists s.
  split; [|split; [reflexivity|]].
  - eapply log_ok_process_legs; [|exact R].
    constructor; simpl; try reflexivity; constructor.
  - simpl in R.
    destruct (process_leg _ _ _ _ _) as [s1|]; [|discriminate].
    destruct (process_leg _ _ _ _ s1) as [s2|] eqn:L2; [|discriminate].
    injection R as <-.
    unfold process_leg in L2. destruct (drive_loop _ _ _) as [s3|]; [|discriminate].
    simpl in L2. injection L2 as <-. simpl.
    intro N. apply app_eq_nil in N. destruct N as [_ N]. discriminate.
Qed.

(* ------------------------------------------------------------------ *)
(** ** The bound on the passes does not shape the result *)

Lemma drive_loop_more_fuel (name : string) :
  forall n s s',
    drive_loop n name s = Some s' ->
    forall m, (n <= m)%nat -> drive_loop m name s = Some s'.
Proof.
  induction n as [|n IH]; intros s s' H m Hm.
  - simpl in H. destruct (Qltb 0 (miles_to_drive s)) eqn:E; [discriminate|].
    destruct m; simpl; rewrite E; exact H.
  - simpl in H. destruct (Qltb 0 (miles_to_drive s)) eqn:E.
    + destruct m as [|m]; [lia|]. simpl. rewrite E.
      apply (IH _ _ H). lia.
    + destruct m; simpl; rewrite E; exact H.
Qed.

Lemma process_leg_more_fuel (n m : nat) (p d : Location) (leg_data : LegData)
    (s s' : DriveState) :
  (n <= m)%nat ->
  process_leg n p d leg_data s = Some s' ->
  process_leg m p d leg_data s = Some s'.
Proof.
  intros Hm H. unfold process_leg in *.
  destruct (drive_loop n _ _) as [s1|] eqn:L; [|discriminate].
  rewrite (drive_loop_more_fuel _ _ _ _ L m Hm). exact H.
Qed.

Lemma process_legs_more_fuel (n m : nat) (p d : Location) :
  (n <= m)%nat ->
  forall legs_data s s',
    process_legs n p d legs_data s = Some s' ->
    process_legs m p d legs_data s = Some s'.
Proof.
  intros Hm legs_data.
  induction legs_data as [|l rest IH]; intros s s' H; simpl in *.
  - exact H.
  - destruct (process_leg n p d l s) as [s1|] eqn:L; [|discriminate].
    rewrite (process_leg_more_fuel n m p d l s s1 Hm L). apply IH. exact H.
Qed.

(** A schedule returned within some bound is returned, unchanged, within
    any larger one. *)
Lemma create_trip_schedule_more_fuel (n m : nat) (now : datetime)
    (route : RouteResult) (c p d : Location) (cycle : Q)
    (start : option datetime) (sch : TripSchedule) :
  (n <= m)%nat ->
  create_trip_schedule n now route c p d cycle start = Returned sch ->
  create_trip_schedule m now route c p d cycle start = Returned sch.
Proof.
  intros Hm. unfold create_trip_schedule.
  destruct (nth_error (legs route) 0) as [l0|]; [|discriminate].
  destruct (nth_error (legs route) 1) as [l1|]; [|discriminate].
  destruct (process_legs n _ _ _ _) as [s|] eqn:R; [|discriminate].
  rewrite (process_legs_more_fuel n m _ _ Hm _ _ _ R). auto.
Qed.

(* ------------------------------------------------------------------ *)
(** ** Consequences of tiling *)

Lemma tiles_last (t0 t1 : datetime) (init : list ScheduleEvent) (l : ScheduleEvent) :
  tiles t0 (init ++ [l]) t1 -> end_time l = t1.
Proof.
  revert t0. induction init as [|a init IH]; simpl; intros t0 H.
  - destruct H as [_ H]. exact H.
  - destruct H as [_ H]. apply (IH _ H).
Qed.

Lemma tiles_adjacent (evs : list ScheduleEvent) :
  forall t0 t1 i a b,
    tiles t0 evs t1 ->
    nth_error evs i = Some a -> nth_error evs (S i) = Some b ->
    start_time b = end_time a.
Proof.
  induction evs as [|e evs IH]; intros t0 t1 i a b H Ha Hb.
  - destruct i; discriminate.
  - destruct H as [_ H]. destruct i as [|i].
    + simpl in Ha. injection Ha as <-.
      destruct evs as [|e' evs]; [discriminate|].
      simpl in Hb. injection Hb as <-. destruct H as [H _]. exact H.
    + simpl in Ha. apply (IH _ _ i a b H Ha Hb).
Qed.

(** In a forward tiling every event lies between the two ends. *)
Lemma tiles_within (evs : list ScheduleEvent) :
  forall t0 t1 i a,
    tiles t0 evs t1 ->
    Forall (fun e => (start_time e <= end_time e)%Z) evs ->
    nth_error evs i = Some a ->
    (t0 <= start_time a /\ end_time a <= t1)%Z.
Proof.
  induction evs as [|e evs IH]; intros t0 t1 i a H F Ha.
  - destruct i; discriminate.
  - destruct H as [Hs H]. inversion F as [|? ? Fe Fr]; subst.
    assert (Hend : (end_time e <= t1)%Z).
    { clear -H Fr. revert H. generalize (end_time e) as u. revert Fr.
      induction evs as [|x evs IHe]; simpl; intros Fr u H.
      - lia.
      - destruct H as [H1 H2]. inversion Fr; subst.
        specialize (IHe ltac:(assumption) _ H2). lia. }
    destruct i as [|i].
    + simpl in Ha. injection Ha as <-. lia.
    + simpl in Ha. destruct (IH _ _ _ _ H Fr Ha). lia.
Qed.

Lemma tiles_ordered (evs : list ScheduleEvent) :
  forall t0 t1 i j a b,
    tiles t0 evs t1 ->
    Forall (fun e => (start_time e <= end_time e)%Z) evs ->
    (i < j)%nat ->
    nth_error evs i = Some a -> nth_error evs j = Some b ->
    (end_time a <= start_time b)%Z.
Proof.
  induction evs as [|e evs IH]; intros t0 t1 i j a b H F Hij Ha Hb.
  - destruct i; discriminate.
  - destruct H as [Hs H]. inversion F as [|? ? Fe Fr]; subst.
    destruct j as [|j]; [lia|]. simpl in Hb.
    destruct i as [|i].
    + simpl in Ha. injection Ha as <-.
      destruct (tiles_within _ _ _ _ _ H Fr Hb). lia.
    + simpl in Ha. apply (IH _ _ i j a b H Fr); [lia | assumption | assumption].
Qed.

(* ------------------------------------------------------------------ *)
(** ** The shape of a produced schedule *)

(** C10: consecutive events abut exactly: the first event starts at the
    trip's start time, each event starts where the previous one ended, and
    the trip's end time is the end of the last event. *)
Theorem events_tile_the_trip (fuel : nat) (now : datetime)
    (route : RouteResult) (c p d : Location) (cycle : Q)
    (start : option datetime) (sch : TripSchedule) :
  create_trip_schedule fuel now route c p d cycle start = Returned sch ->
  trip_start_time sch = Some (effective_start now start)
  /\ (exists first rest,
        events sch = first :: rest
        /\ start_time first = effective_start now start)
  /\ (exists init last,
        events sch = init ++ [last]
        /\ trip_end_time sch = Some (end_time last))
  /\ (forall i a b,
        nth_error (events sch) i = Some a ->
        nth_error (events sch) (S i) = Some b ->
        start_time b = end_time a).
Proof.
  intro H. apply create_trip_schedule_returns in H.
  destruct H as (s & [H1 H2 H3 H4 H5] & -> & NE). simpl.
  split; [exact H1|]. split; [|split].
  - destruct (events (schedule s)) as [|first rest]; [contradiction|].
    exists first, rest. split; [reflexivity | exact (proj1 H2)].
  - destruct (exists_last NE) as (init & last & E).
    exists init, last. split; [exact E|].
    rewrite E in H2. apply tiles_last in H2. rewrite H2. reflexivity.
  - intros i a b. apply tiles_adjacent with (1 := H2).
Qed.

Lemma events_tile_the_trip_witness :
  short_trip = Returned short_trip_schedule
  /\ trip_start_time short_trip_schedule = Some 0%Z
  /\ (exists first rest,
        events short_trip_schedule = first :: rest /\ start_time first = 0%Z)
  /\ (exists init last,
        events short_trip_schedule = init ++ [last]
        /\ trip_end_time short_trip_schedule = Some (end_time last))
  /\ (forall i a b,
        nth_error (events short_trip_schedule) i = Some a ->
        nth_error (events short_trip_schedule) (S i) = Some b ->
        start_time b = end_time a).
Proof.
  split; [vm_compute; reflexivity|].
  apply (events_tile_the_trip 10 0%Z (route_of_miles [50; 50]) depot depot depot
           0 (Some 0%Z) short_trip_schedule).
  vm_compute. reflexivity.
Defined.

(** C9: the stops of a produced schedule correspond one to one, in order,
    to its non-driving events: each stop's duration in minutes and mile
    marker are those of its event, which stays at one mile position. *)
Theorem stops_match_non_driving_events (fuel : nat) (now : datetime)
    (route : RouteResult) (c p d : Location) (cycle : Q)
    (start : option datetime) (sch : TripSchedule) :
  create_trip_schedule fuel now route c p d cycle start = Returned sch ->
  Forall2 stop_matches_event (stops sch) (filter non_driving (events sch)).
Proof.
  intro H. apply create_trip_schedule_returns in H.
  destruct H as (s & [H1 H2 H3 H4 H5] & -> & NE). exact H5.
Qed.

Lemma stops_match_non_driving_events_witness :
  short_trip = Returned short_trip_schedule
  /\ Forall2 stop_matches_event (stops short_trip_schedule)
       (filter non_driving (events short_trip_schedule)).
Proof.
  split; [vm_compute; reflexivity|].
  apply (stops_match_non_driving_events 10 0%Z (route_of_miles [50; 50])
           depot depot depot 0 (Some 0%Z) short_trip_schedule).
  vm_compute. reflexivity.
Defined.

(** C8, as the scheduler has it: every emitted event has
    startTime <= endTime, strictly for every non-driving event and for every
    DRIVING event of more than half a microsecond; the events are in
    non-decreasing startTime order and no two overlap. *)
Theorem events_forward_and_ordered (fuel : nat) (now : datetime)
    (route : RouteResult) (c p d : Location) (cycle : Q)
    (start : option datetime) (sch : TripSchedule) :
  create_trip_schedule fuel now route c p d cycle start = Returned sch ->
  Forall (fun e => (start_time e <= end_time e)%Z) (events sch)
  /\ Forall event_has_length (events sch)
  /\ (forall i j a b,
        (i < j)%nat ->
        nth_error (events sch) i = Some a ->
        nth_error (events sch) j = Some b ->
        (start_time a <= start_time b /\ end_time a <= start_time b)%Z).
Proof.
  intro H. apply create_trip_schedule_returns in H.
  destruct H as (s & [H1 H2 H3 H4 H5] & -> & NE). simpl.
  split; [exact H3|]. split; [exact H4|].
  intros i j a b Hij Ha Hb.
  pose proof (tiles_ordered _ _ _ i j a b H2 H3 Hij Ha Hb) as Ho.
  assert (Fa : (start_time a <= end_time a)%Z).
  { rewrite Forall_forall in H3. apply H3. eapply nth_error_In. exact Ha. }
  lia.
Qed.

Lemma events_forward_and_ordered_witness :
  short_trip = Returned short_trip_schedule
  /\ Forall (fun e => (start_time e <= end_time e)%Z) (events short_trip_schedule)
  /\ Forall event_has_length (events short_trip_schedule)
  /\ (forall i j a b,
        (i < j)%nat ->
        nth_error (events short_trip_schedule) i = Some a ->
        nth_error (events short_trip_schedule) j = Some b ->
        (start_time a <= start_time b /\ end_time a <= start_time b)%Z).
Proof.
  split; [vm_compute; reflexivity|].
  apply (events_forward_and_ordered 10 0%Z (route_of_miles [50; 50])
           depot depot depot 0 (Some 0%Z) short_trip_schedule).
  vm_compute. reflexivity.
Defined.

(** C8 as stated fails: the near-limit trip returns a schedule whose fifth
    event, a DRIVING event covering a billionth of a mile, has
    startTime = endTime. *)
Lemma zero_length_driving_event :
  exists sch e,
    near_limit_trip = Returned sch
    /\ nth_error (events sch) 4 = Some e
    /\ status e = DRIVING
    /\ miles_start e < miles_end e
    /\ ~ (start_time e < end_time e)%Z.
Proof.
  eexists. eexists.
  split; [vm_compute; reflexivity|].
  split; [reflexivity|].
  split; [reflexivity|].
  split; [vm_compute; reflexivity|].
  vm_compute. discriminate.
Qed.

(* ------------------------------------------------------------------ *)
(** ** Day segmentation *)

Lemma date_of_next_day_start (t : datetime) :
  date_of (next_day_start t) = (date_of t + 1)%Z.
Proof.
  unfold next_day_start, replace_hms, date_of, timedelta_days.
  unfold US_PER_DAY, US_PER_HOUR, US_PER_MINUTE, US_PER_SECOND.
  Z.div_mod_to_equations. lia.
Qed.

Lemma next_day_start_later (t : datetime) : (t < next_day_start t)%Z.
Proof.
  unfold next_day_start, replace_hms, date_of, timedelta_days.
  unfold US_PER_DAY, US_PER_HOUR, US_PER_MINUTE, US_PER_SECOND.
  Z.div_mod_to_equations. lia.
Qed.

Lemma date_of_monotone (a b : datetime) : (a <= b)%Z -> (date_of a <= date_of b)%Z.
Proof.
  intro H. unfold date_of. apply Z.div_le_mono; [reflexivity | exact H].
Qed.

Lemma by_day_append_cases (key : Z) (ev : ScheduleEvent) (by_day : ByDay) :
  forall k ds d,
    In (k, ds) (by_day_append key ev by_day) -> In d ds ->
    (exists ds', In (k, ds') by_day /\ In d ds') \/ (k = key /\ d = ev).
Proof.
  induction by_day as [|[k0 evs0] rest IH]; simpl; intros k ds d Hin Hd.
  - destruct Hin as [E | []]. injection E as <- <-.
    destruct Hd as [<- | []]. right. split; reflexivity.
  - destruct (k0 =? key)%Z eqn:K.
    + apply Z.eqb_eq in K. destruct Hin as [E | Hin].
      * injection E as <- <-. apply in_app_or in Hd. destruct Hd as [Hd | [<- | []]].
        -- left. exists evs0. split; [left; reflexivity | exact Hd].
        -- right. split; [exact K | reflexivity].
      * left. exists ds. split; [right; exact Hin | exact Hd].
    + destruct Hin as [E | Hin].
      * injection E as <- <-. left. exists evs0. split; [left; reflexivity | exact Hd].
      * destruct (IH _ _ _ Hin Hd) as [(ds' & H1 & H2) | H].
        -- left. exists ds'. split; [right; exact H1 | exact H2].
        -- right. exact H.
Qed.

Lemma has_sub_append_new (key : Z) (ev : ScheduleEvent) (by_day : ByDay) :
  has_sub (by_day_append key ev by_day) key ev.
Proof.
  induction by_day as [|[k0 evs0] rest IH]; simpl.
  - exists [ev]. split; left; reflexivity.
  - destruct (k0 =? key)%Z eqn:K.
    + apply Z.eqb_eq in K. subst. exists (evs0 ++ [ev]).
      split; [left; reflexivity | apply in_or_app; right; left; reflexivity].
    + destruct IH as (ds & H1 & H2). exists ds. split; [right; exact H1 | exact H2].
Qed.

Lemma has_sub_append_old (key : Z) (ev : ScheduleEvent) (by_day : ByDay)
    (k : Z) (d : ScheduleEvent) :
  has_sub by_day k d -> has_sub (by_day_append key ev by_day) k d.
Proof.
  induction by_day as [|[k0 evs0] rest IH]; simpl; intros (ds & H1 & H2).
  - destruct H1.
  - destruct (k0 =? key)%Z eqn:K.
    + destruct H1 as [E | H1].
      * injection E as -> ->. exists (ds ++ [ev]).
        split; [left; reflexivity | apply in_or_app; left; exact H2].
      * exists ds. split; [right; exact H1 | exact H2].
    + destruct H1 as [E | H1].
      * injection E as -> ->. exists ds. split; [left; reflexivity | exact H2].
      * destruct IH as (ds' & H3 & H4); [exists ds; split; assumption|].
        exists ds'. split; [right; exact H3 | exact H4].
Qed.

Lemma split_event_step (fuel : nat) (event : ScheduleEvent) (cur : datetime)
    (by_day : ByDay) :
  (cur < end_time event)%Z ->
  split_event (S fuel) event cur by_day =
    split_event fuel event (next_day_start cur)
      (by_day_append (date_of cur) (day_piece event cur) by_day).
Proof.
  intro H. simpl. apply Z.ltb_lt in H. rewrite H. reflexivity.
Qed.

Lemma split_event_done (fuel : nat) (event : ScheduleEvent) (cur : datetime)
    (by_day : ByDay) :
  (end_time event <= cur)%Z -> split_event fuel event cur by_day = Some by_day.
Proof.
  intro H. apply Z.ltb_ge in H. destruct fuel; simpl; rewrite H; reflexivity.
Qed.

(** With enough passes for the days left, the loop for one event finishes
    and keeps the map well-formed and growing. *)
Lemma split_event_ok (evs : list ScheduleEvent) (event : ScheduleEvent) :
  In event evs ->
  forall fuel cur by_day,
    (start_time event <= cur)%Z ->
    ((cur < end_time event)%Z ->
     (Z.to_nat (date_of (end_time event) - date_of cur) < fuel)%nat) ->
    by_day_ok evs by_day ->
    exists by_day',
      split_event fuel event cur by_day = Some by_day'
      /\ by_day_ok evs by_day'
      /\ (forall k d, has_sub by_day k d -> has_sub by_day' k d)
      /\ ((cur < end_time event)%Z ->
          has_sub by_day' (date_of cur) (day_piece event cur)
          /\ ((next_day_start cur < end_time event)%Z ->
              has_sub by_day' (date_of (next_day_start cur))
                (day_piece event (next_day_start cur)))).
Proof.
  intros Hin fuel. induction fuel as [|fuel IH]; intros cur by_day Hs Hf Hok.
  - destruct (Z_lt_le_dec cur (end_time event)) as [L | G].
    + specialize (Hf L). lia.
    + exists by_day. rewrite split_event_done by exact G.
      split; [reflexivity|]. split; [exact Hok|]. split; [auto|]. intro L. lia.
  - destruct (Z_lt_le_dec cur (end_time event)) as [L | G].
    2:{ exists by_day. rewrite split_event_done by exact G.
        split; [reflexivity|]. split; [exact Hok|]. split; [auto|]. intro L. lia. }
    rewrite split_event_step by exact L.
    pose proof (next_day_start_later cur) as Hn.
    destruct (IH (next_day_start cur)
                (by_day_append (date_of cur) (day_piece event cur) by_day))
      as (bd' & R & Ok' & Mono & Sub).
    + lia.
    + intro L'. specialize (Hf L).
      rewrite date_of_next_day_start.
      assert (date_of (next_day_start cur) <= date_of (end_time event))%Z
        by (apply date_of_monotone; lia).
      rewrite date_of_next_day_start in *. lia.
    + intros k ds d Hk Hd.
      destruct (by_day_append_cases _ _ _ _ _ _ Hk Hd) as [(ds' & H1 & H2) | [-> ->]].
      * apply (Hok k ds' d H1 H2).
      * split; [reflexivity|].
        exists event. split; [exact Hin|]. split; [repeat split|].
        simpl. lia.
    + exists bd'. split; [exact R|]. split; [exact Ok'|]. split.
      * intros k d H. apply Mono, has_sub_append_old, H.
      * intros _. split; [apply Mono, has_sub_append_new|].
        intro L'. apply (proj1 (Sub L')).
Qed.

Lemma days_touched_enough (event : ScheduleEvent) :
  (Z.to_nat (date_of (end_time event) - date_of (start_time event))
   < days_touched event)%nat.
Proof. unfold days_touched. lia. Qed.

Lemma split_events_ok (evs : list ScheduleEvent) :
  forall rest by_day,
    (forall e, In e rest -> In e evs) ->
    by_day_ok evs by_day ->
    exists by_day',
      split_events rest by_day = Some by_day'
      /\ by_day_ok evs by_day'
      /\ (forall k d, has_sub by_day k d -> has_sub by_day' k d)
      /\ (forall e, In e rest -> crosses_midnight e ->
            has_sub by_day' (date_of (start_time e)) (day_piece e (start_time e))
            /\ has_sub by_day' (date_of (start_time e) + 1)
                 (day_piece e (next_day_start (start_time e)))).
Proof.
  induction rest as [|e rest IH]; intros by_day Hsub Hok; cbn [split_events].
  - exists by_day. split; [reflexivity|]. split; [exact Hok|]. split; [auto|].
    intros e [].
  - destruct (split_event_ok evs e (Hsub e (or_introl eq_refl))
                (days_touched e) (start_time e) by_day)
      as (bd1 & R1 & Ok1 & Mono1 & Sub1);
      [lia | intros _; apply days_touched_enough | exact Hok |].
    rewrite R1.
    destruct (IH bd1) as (bd2 & R2 & Ok2 & Mono2 & Sub2);
      [intros x Hx; apply Hsub; right; exact Hx | exact Ok1 |].
    exists bd2. split; [exact R2|]. split; [exact Ok2|]. split.
    + intros k d H. apply Mono2, Mono1, H.
    + intros x [<- | Hx] [C1 C2].
      * destruct (Sub1 C1) as [S1 S2]. specialize (S2 C2).
        rewrite date_of_next_day_start in S2.
        split; apply Mono2; assumption.
      * apply Sub2; [exact Hx | split; assumption].
Qed.



(* ------------------------------------------------------------------ *)
(** ** Modulo on rationals *)







(* ------------------------------------------------------------------ *)
(** ** The segment length *)

Lemma miles_this_segment_bounds (s : DriveState) :
  miles_this_segment s <= miles_to_drive s
  /\ miles_this_segment s
       <= get_max_continuous_driving_hours (hos_state s) * AVG_SPEED_MPH
  /\ miles_this_segment s <= miles_to_next_fuel (current_miles s).
Proof.
  unfold miles_this_segment, py_min_list. simpl.
  unfold py_min. qcases; repeat split; lra.
Qed.

(* ------------------------------------------------------------------ *)
(** ** Where fuel stops are inserted *)



(** What one pass of the loop does to the mileage. *)
Lemma drive_iteration_miles (name : string) (s : DriveState) :
  (miles_this_segment s <= 0 ->
     current_miles (drive_iteration name s) = current_miles s
     /\ miles_to_drive (drive_iteration name s) = miles_to_drive s)
  /\ (0 < miles_this_segment s ->
     current_miles (drive_iteration name s)
       = current_miles s + miles_this_segment s
     /\ miles_to_drive (drive_iteration name s)
       = miles_to_drive s - miles_this_segment s).
Proof.
  unfold drive_iteration. split; intro H.
  - destruct (Qle_bool (miles_this_segment s) 0) eqn:E;
      [|apply Qle_bool_false in E; lra].
    unfold cannot_drive.
    repeat match goal with
    | |- context [if ?c then _ else _] => destruct c
    end; split; reflexivity.
  - destruct (Qle_bool (miles_this_segment s) 0) eqn:E;
      [apply Qle_bool_iff in E; lra|].
    unfold check_reset, check_rest_break, check_fuel_stop.
    repeat match goal with
    | |- context [if ?c then _ else _] => destruct c
    end; split; reflexivity.
Qed.











(* ------------------------------------------------------------------ *)
(** ** Rejected and unchecked inputs *)

Lemma drive_loop_nothing_to_drive (fuel : nat) (name : string) (s : DriveState) :
  miles_to_drive s <= 0 -> drive_loop fuel name s = Some s.
Proof.
  intro H. apply Qltb_false in H. destruct fuel; simpl; rewrite H; reflexivity.
Qed.

(** C7, as the code has it: a cycleUsedHours outside [0, 70] is answered
    with HTTP 400 before the scheduler is called; a route with fewer than
    two legs makes the scheduler raise IndexError and return no schedule; a
    leg distance that is negative (or zero) is not rejected: the leg is
    scheduled without driving and its terminal stop is still emitted. *)
Theorem invalid_inputs_handling :
  (forall geocode_address reverse_geocode calculate_route fuel now req x,
     cycleUsedHours req = Some x -> (x < 0 \/ 70 < x) ->
     plan_trip geocode_address reverse_geocode calculate_route fuel now req
       = Returned HTTP_400_BAD_REQUEST)
  /\ (forall fuel now route c p d cycle start,
        (List.length (legs route) < 2)%nat ->
        create_trip_schedule fuel now route c p d cycle start = IndexError)
  /\ (forall fuel p d leg_data s,
        distance_miles (leg leg_data) <= 0 ->
        exists s' e st,
          process_leg fuel p d leg_data s = Some s'
          /\ events (schedule s') = events (schedule s) ++ [e]
          /\ stops (schedule s') = stops (schedule s) ++ [st]
          /\ status e = ON_DUTY_NOT_DRIVING
          /\ current_miles s' = current_miles s).
Proof.
  split; [|split].
  - intros g r cr fuel now req x Hx Hout.
    unfold plan_trip, PlanTripRequestSerializer, cycleUsedHours_field.
    rewrite Hx.
    assert (E : Qle_bool 0 x && Qle_bool x 70 = false).
    { apply andb_false_iff. destruct Hout as [L | U].
      - left. apply Qle_bool_false. exact L.
      - right. apply Qle_bool_false. exact U. }
    rewrite E.
    destruct (current req); [|reflexivity].
    destruct (pickup req); [|reflexivity].
    destruct (dropoff req); reflexivity.
  - intros fuel now route c p d cycle start Hlen.
    unfold create_trip_schedule.
    destruct (legs route) as [|l0 [|l1 rest]]; simpl in *; try reflexivity; lia.
  - intros fuel p d leg_data s Hneg.
    unfold process_leg.
    rewrite drive_loop_nothing_to_drive by exact Hneg.
    destruct (StopType_eqb _ _); do 3 eexists;
      (split; [reflexivity|]); simpl; repeat split; reflexivity.
Qed.

Lemma invalid_inputs_handling_witness :
  plan_trip (fun _ => None) (fun _ _ => EmptyString) (fun _ _ _ => None)
    5 0%Z (mkPlanTripRequest None None None (Some (71 # 1)))
    = Returned HTTP_400_BAD_REQUEST
  /\ trip 5 [10] 0 = IndexError.
Proof.
  split.
  - apply (proj1 invalid_inputs_handling (fun _ => None)
             (fun _ _ => EmptyString) (fun _ _ _ => None) 5%nat 0%Z
             (mkPlanTripRequest None None None (Some (71 # 1))) (71 # 1)).
    + reflexivity.
    + right. reflexivity.
  - apply (proj1 (proj2 invalid_inputs_handling)).
    simpl. lia.
Defined.

(** C7 as stated fails: a route whose first leg has a negative distance is
    scheduled all the same, with three events and two stops. *)
Lemma negative_leg_is_scheduled :
  exists sch,
    negative_leg_trip = Returned sch
    /\ List.length (events sch) = 3%nat
    /\ List.length (stops sch) = 2%nat
    /\ map stop_type (stops sch) = [PICKUP; DROPOFF].
Proof.
  eexists. split; [vm_compute; reflexivity|].
  repeat split; reflexivity.
Qed.

(* ------------------------------------------------------------------ *)
(** ** Cycle exhaustion *)








(* ------------------------------------------------------------------ *)
(** ** The make-up of the duty window *)








(* ------------------------------------------------------------------ *)
(** ** HOS transitions on the shift counters *)








(* ------------------------------------------------------------------ *)
(** ** Replaying a log *)


Lemma hos_equiv_sym (a b : HOSState) : hos_equiv a b -> hos_equiv b a.
Proof.
  intros (A & B & C & D). unfold hos_equiv.
  repeat split; symmetry; assumption.
Qed.











(* ------------------------------------------------------------------ *)
(** ** The scheduler's actions keep the log within the limits *)




















(* ------------------------------------------------------------------ *)
(** ** More on the HOS rules *)

(** X1: the driver can drive exactly when the continuous-drive limit is
    positive. *)
Theorem can_drive_iff_positive_limit (s : HOSState) :
  can_drive s = true <-> 0 < get_max_continuous_driving_hours s.
Proof.
  unfold can_drive, needs_30_min_break, get_max_continuous_driving_hours,
    py_min_list, driving_hours_remaining, duty_window_remaining,
    cycle_hours_remaining, hours_until_break_required, MAX_DRIVING_HOURS,
    MAX_DUTY_WINDOW_HOURS, CYCLE_LIMIT_HOURS, BREAK_REQUIRED_AFTER_HOURS.
  simpl. rewrite !andb_true_iff, negb_true_iff, !Qltb_true, Qle_bool_false.
  unfold py_max, py_min.
  split.
  - intros (((A & B) & C) & D). qcases; lra.
  - intro H. qcases; repeat split; lra.
Qed.

(** X2: every transition keeps the counters of a shift nested and never lowers
    the cycle hours. *)
Theorem transitions_keep_counters_nested (h : HOSState) (hours : Q) (c : bool) :
  hos_nested h -> 0 <= hours ->
  (hos_nested (start_new_shift h)
   /\ cycle_hours_used (start_new_shift h) == cycle_hours_used h)
  /\ (hos_nested (add_driving_time h hours)
      /\ cycle_hours_used (add_driving_time h hours) == cycle_hours_used h + hours)
  /\ (hos_nested (add_on_duty_time h hours c)
      /\ cycle_hours_used (add_on_duty_time h hours c)
           == cycle_hours_used h + hours)
  /\ (hos_nested (add_off_duty_time h hours)
      /\ cycle_hours_used (add_off_duty_time h hours) == cycle_hours_used h).
Proof.
  intros (A & B & C & D) H.
  unfold hos_nested, start_new_shift, add_driving_time, add_on_duty_time,
    add_off_duty_time.
  repeat split;
    repeat match goal with
    | |- context [if ?b then _ else _] => destruct b
    end; simpl; lra.
Qed.

Lemma transitions_keep_counters_nested_witness :
  hos_nested (add_driving_time (mkHOSState 3 4 5 2 40 true) (1 # 2))
  /\ cycle_hours_used (add_on_duty_time (mkHOSState 3 4 5 2 40 false) 1 true)
       == 41.
Proof.
  assert (N : forall a, hos_nested (mkHOSState 3 4 5 2 40 a))
    by (intro a; unfold hos_nested; simpl; repeat split; lra).
  split.
  - apply (transitions_keep_counters_nested
             (mkHOSState 3 4 5 2 40 true) (1 # 2) true (N true)). lra.
  - apply (transitions_keep_counters_nested
             (mkHOSState 3 4 5 2 40 false) 1 true (N false)). lra.
Defined.

(* ------------------------------------------------------------------ *)
(** ** The stages of a scheduling run *)

(** A returned schedule comes from two finished drive loops, each followed
    by its terminal stop. *)
Lemma create_trip_schedule_run (fuel : nat) (now : datetime)
    (route : RouteResult) (c p d : Location) (cycle : Q)
    (start : option datetime) (sch : TripSchedule) :
  create_trip_schedule fuel now route c p d cycle start = Returned sch ->
  exists l0 l1 a b,
    nth_error (legs route) 0 = Some l0
    /\ nth_error (legs route) 1 = Some l1
    /\ drive_loop fuel "Pickup"
         (enter_leg (mkLegData l0 c p PICKUP "Pickup")
            (trip_start_state (effective_start now start) cycle)) = Some a
    /\ drive_loop fuel "Dropoff"
         (enter_leg (mkLegData l1 p d DROPOFF "Dropoff") (after_pickup p a))
       = Some b
    /\ sch = finish_schedule (current_miles (after_dropoff d b))
               (current_time (after_dropoff d b))
               (schedule (after_dropoff d b)).
Proof.
  unfold create_trip_schedule. fold (effective_start now start).
  fold (initial_hos cycle).
  destruct (nth_error (legs route) 0) as [l0|]; [|discriminate].
  destruct (nth_error (legs route) 1) as [l1|]; [|discriminate].
  simpl process_legs.
  destruct (process_leg _ _ _ _ _) as [s1|] eqn:P1; [|discriminate].
  destruct (process_leg _ _ _ _ s1) as [s2|] eqn:P2; [|discriminate].
  intro R. injection R as <-.
  unfold process_leg in P1.
  destruct (drive_loop _ _ _) as [a|] eqn:L1; [|discriminate].
  simpl in P1. injection P1 as <-.
  unfold process_leg in P2.
  destruct (drive_loop _ _ _) as [b|] eqn:L2 in P2; [|discriminate].
  simpl in P2. injection P2 as <-.
  exists l0, l1, a, b. repeat split; assumption.
Qed.


(* ------------------------------------------------------------------ *)
(** ** The running totals *)














(* ------------------------------------------------------------------ *)
(** ** Cycle hours *)





(* ------------------------------------------------------------------ *)
(** ** Mile positions *)










(* ------------------------------------------------------------------ *)
(** ** The distance covered and the stops made *)

Lemma covering_iteration (name : string) (s0 s : DriveState) :
  covering s0 s -> covering s0 (drive_iteration name s).
Proof.
  intros (C1 & C2).
  destruct (drive_iteration_miles name s) as [Stay Move].
  destruct (miles_this_segment_bounds s) as (B & _ & _).
  unfold covering.
  destruct (Qlt_le_dec 0 (miles_this_segment s)) as [P | N].
  - destruct (Move P) as [-> ->]. split; lra.
  - destruct (Stay N) as [-> ->]. split; assumption.
Qed.

(** A finished drive loop has advanced the position by the distance the leg
    had to cover. *)
Lemma drive_loop_covers (fuel : nat) (name : string) (s s' : DriveState) :
  drive_loop fuel name s = Some s' ->
  current_miles s' == current_miles s + miles_to_cover (miles_to_drive s).
Proof.
  intro L. unfold miles_to_cover.
  destruct (Qlt_le_dec 0 (miles_to_drive s)) as [P | N].
  - apply (drive_loop_invariant (covering s)) in L.
    + destruct L as ((C1 & C2) & C3).
      rewrite Q.max_r by lra. lra.
    + intros; apply covering_iteration; assumption.
    + split; lra.
  - rewrite drive_loop_nothing_to_drive in L by exact N.
    injection L as <-. rewrite Q.max_l by exact N. lra.
Qed.



Lemma only_compliance_refl (s : DriveState) : only_compliance_since s s.
Proof. exists []. split; [symmetry; apply app_nil_r | constructor]. Qed.

Lemma only_compliance_trans (a b c : DriveState) :
  only_compliance_since a b -> only_compliance_since b c ->
  only_compliance_since a c.
Proof.
  intros (x & E1 & F1) (y & E2 & F2). exists (x ++ y).
  split; [rewrite E2, E1, app_assoc; reflexivity | apply Forall_app; split; assumption].
Qed.

Lemma only_compliance_stop (s : DriveState)
    (r : TripSchedule * (datetime * HOSState)) (st : Stop) :
  stops (fst r) = stops (schedule s) ++ [st] ->
  compliance_stop st ->
  only_compliance_since s (store_stop s r).
Proof.
  intros E C. exists [st]. split; [exact E | constructor; [exact C | constructor]].
Qed.

Ltac compliance_of_stop :=
  eapply only_compliance_stop;
  [ reflexivity
  | unfold compliance_stop; simpl;
    first [ left; reflexivity | right; left; reflexivity | right; right; reflexivity ] ].

Lemma only_compliance_iteration (name : string) (s : DriveState) :
  only_compliance_since s (drive_iteration name s).
Proof.
  unfold drive_iteration.
  destruct (Qle_bool (miles_this_segment s) 0).
  - unfold cannot_drive.
    repeat match goal with
    | |- context [if ?c then _ else _] => destruct c
    end; try apply only_compliance_refl; compliance_of_stop.
  - set (s1 := drive_segment name (miles_this_segment s) s).
    assert (H1 : only_compliance_since s s1).
    { exists []. split; [symmetry; apply app_nil_r | constructor]. }
    assert (H2 : only_compliance_since s1 (check_fuel_stop (miles_this_segment s) s1)).
    { unfold check_fuel_stop. destruct (_ && _);
        [compliance_of_stop | apply only_compliance_refl]. }
    set (s2 := check_fuel_stop (miles_this_segment s) s1) in *.
    assert (H3 : only_compliance_since s2 (check_rest_break s2)).
    { unfold check_rest_break. destruct (_ && _);
        [compliance_of_stop | apply only_compliance_refl]. }
    set (s3 := check_rest_break s2) in *.
    assert (H4 : only_compliance_since s3 (check_reset s3)).
    { unfold check_reset. destruct (_ && _);
        [compliance_of_stop | apply only_compliance_refl]. }
    eauto using only_compliance_trans.
Qed.

Lemma only_compliance_drive_loop (fuel : nat) (name : string) (s s' : DriveState) :
  drive_loop fuel name s = Some s' -> only_compliance_since s s'.
Proof.
  intro L. apply (drive_loop_invariant (only_compliance_since s)) in L.
  - apply L.
  - intros x H _. eapply only_compliance_trans;
      [exact H | apply only_compliance_iteration].
  - apply only_compliance_refl.
Qed.

(** X7: the stops of a produced schedule are: compliance stops (fuel, rest
    break, off-duty reset), the PICKUP at the mile the first leg ends at,
    more compliance stops, and last the DROPOFF at the trip's total
    miles. *)
Theorem stops_are_pickup_then_dropoff (fuel : nat) (now : datetime)
    (route : RouteResult) (c p d : Location) (cycle : Q)
    (start : option datetime) (sch : TripSchedule) (l0 : RouteLeg) :
  nth_error (legs route) 0 = Some l0 ->
  create_trip_schedule fuel now route c p d cycle start = Returned sch ->
  exists before between pk dr m,
    stops sch = before ++ pk :: between ++ [dr]
    /\ Forall compliance_stop before
    /\ Forall compliance_stop between
    /\ stop_type pk = PICKUP
    /\ mile_marker pk = Some m
    /\ m == miles_to_cover (distance_miles l0)
    /\ stop_type dr = DROPOFF
    /\ mile_marker dr = Some (total_miles sch).
Proof.
  intros E0 R. apply create_trip_schedule_run in R.
  destruct R as (l0' & l1 & a & b & E0' & _ & L1 & L2 & ->).
  rewrite E0 in E0'. injection E0' as <-.
  pose proof (drive_loop_covers _ _ _ _ L1) as C1.
  apply only_compliance_drive_loop in L1. destruct L1 as (before & B1 & B2).
  apply only_compliance_drive_loop in L2. destruct L2 as (between & T1 & T2).
  simpl in B1, C1, T1.
  eexists before, between, _, _, (current_miles a).
  split.
  { simpl. rewrite T1, B1. simpl. rewrite <- !app_assoc. simpl. reflexivity. }
  split; [exact B2|]. split; [exact T2|].
  split; [reflexivity|]. split; [reflexivity|].
  split; [rewrite C1; lra|].
  split; reflexivity.
Qed.

Lemma stops_are_pickup_then_dropoff_witness :
  exists before between pk dr m,
    stops short_trip_schedule = before ++ pk :: between ++ [dr]
    /\ Forall compliance_stop before
    /\ Forall compliance_stop between
    /\ stop_type pk = PICKUP
    /\ mile_marker pk = Some m
    /\ m == miles_to_cover 50
    /\ stop_type dr = DROPOFF
    /\ mile_marker dr = Some (total_miles short_trip_schedule).
Proof.
  apply (stops_are_pickup_then_dropoff 10 0%Z (route_of_miles [50; 50])
           depot depot depot 0 (Some 0%Z) short_trip_schedule (leg_of_miles 50)).
  - reflexivity.
  - vm_compute. reflexivity.
Defined.

(* ------------------------------------------------------------------ *)
(** ** Which limit stops the driver *)







(* ------------------------------------------------------------------ *)
(** ** Steps of a run with cycle hours to spare *)













(* ------------------------------------------------------------------ *)
(** ** Every pass of the drive loop makes progress *)










(* ------------------------------------------------------------------ *)
(** ** The drive loop finishes *)









(* ------------------------------------------------------------------ *)
(** ** More on day segmentation *)

Lemma by_day_append_keys (key : Z) (ev : ScheduleEvent) (by_day : ByDay) :
  forall k, In k (map fst (by_day_append key ev by_day)) ->
            k = key \/ In k (map fst by_day).
Proof.
  induction by_day as [|[k0 evs0] rest IH]; simpl; intros k H.
  - destruct H as [H | []]. left. symmetry. exact H.
  - destruct (k0 =? key)%Z eqn:K; simpl in H.
    + right. exact H.
    + destruct H as [H | H]; [right; left; exact H|].
      destruct (IH _ H) as [E | I]; [left; exact E | right; right; exact I].
Qed.

Lemma by_day_append_NoDup (key : Z) (ev : ScheduleEvent) (by_day : ByDay) :
  NoDup (map fst by_day) -> NoDup (map fst (by_day_append key ev by_day)).
Proof.
  induction by_day as [|[k0 evs0] rest IH]; simpl; intro H.
  - constructor; [intros [] | constructor].
  - inversion H as [|? ? Hn Hr]; subst.
    destruct (k0 =? key)%Z eqn:K; simpl.
    + constructor; assumption.
    + apply Z.eqb_neq in K. constructor; [|apply IH; exact Hr].
      intro I. apply by_day_append_keys in I. destruct I as [E | I]; auto.
Qed.

Lemma split_event_NoDup (event : ScheduleEvent) :
  forall fuel cur by_day by_day',
    NoDup (map fst by_day) ->
    split_event fuel event cur by_day = Some by_day' ->
    NoDup (map fst by_day').
Proof.
  induction fuel as [|fuel IH]; intros cur by_day by_day' H R; simpl in R.
  - destruct (cur <? end_time event)%Z; [discriminate|].
    injection R as <-. exact H.
  - destruct (cur <? end_time event)%Z.
    + apply IH in R; [exact R|]. apply by_day_append_NoDup. exact H.
    + injection R as <-. exact H.
Qed.

Lemma split_events_NoDup (evs : list ScheduleEvent) :
  forall by_day by_day',
    NoDup (map fst by_day) ->
    split_events evs by_day = Some by_day' ->
    NoDup (map fst by_day').
Proof.
  induction evs as [|e evs IH]; intros by_day by_day' H R; cbn [split_events] in R.
  - injection R as <-. exact H.
  - destruct (split_event _ _ _ _) as [bd1|] eqn:S1; [|discriminate].
    apply (IH bd1); [|exact R]. eapply split_event_NoDup; eassumption.
Qed.

Lemma day_end_in_day (t : datetime) :
  (t <= replace_hms t 23 59 59)%Z
  /\ date_of (replace_hms t 23 59 59) = date_of t
  /\ (replace_hms t 23 59 59 < next_day_start t)%Z.
Proof.
  unfold next_day_start, replace_hms, date_of, timedelta_days.
  unfold US_PER_DAY, US_PER_HOUR, US_PER_MINUTE, US_PER_SECOND.
  Z.div_mod_to_equations. lia.
Qed.

Lemma date_of_between (a b c : datetime) :
  (a <= b <= c)%Z -> date_of a = date_of c -> date_of b = date_of a.
Proof.
  intros [H1 H2] E.
  pose proof (date_of_monotone _ _ H1). pose proof (date_of_monotone _ _ H2). lia.
Qed.

Lemma day_piece_within_day (event : ScheduleEvent) (cur : datetime) :
  (cur < end_time event)%Z -> within_day (date_of cur) (day_piece event cur).
Proof.
  intro L. destruct (day_end_in_day cur) as (A & B & _).
  unfold within_day, day_piece. simpl.
  split; [reflexivity|]. split; [|lia].
  apply (date_of_between cur _ (replace_hms cur 23 59 59)); [lia | congruence].
Qed.

Lemma split_event_within_days (event : ScheduleEvent) :
  forall fuel cur by_day by_day',
    pieces_within_days by_day ->
    split_event fuel event cur by_day = Some by_day' ->
    pieces_within_days by_day'.
Proof.
  induction fuel as [|fuel IH]; intros cur by_day by_day' H R.
  - simpl in R. destruct (cur <? end_time event)%Z; [discriminate|].
    injection R as <-. exact H.
  - destruct (Z_lt_le_dec cur (end_time event)) as [L | G].
    + rewrite split_event_step in R by exact L.
      apply IH in R; [exact R|].
      intros k ds d Hk Hd.
      destruct (by_day_append_cases _ _ _ _ _ _ Hk Hd) as [(ds' & H1 & H2) | [-> ->]].
      * apply (H k ds' d H1 H2).
      * apply day_piece_within_day. exact L.
    + rewrite split_event_done in R by exact G. injection R as <-. exact H.
Qed.

Lemma split_events_within_days (evs : list ScheduleEvent) :
  forall by_day by_day',
    pieces_within_days by_day ->
    split_events evs by_day = Some by_day' ->
    pieces_within_days by_day'.
Proof.
  induction evs as [|e evs IH]; intros by_day by_day' H R; cbn [split_events] in R.
  - injection R as <-. exact H.
  - destruct (split_event _ _ _ _) as [bd1|] eqn:S1; [|discriminate].
    apply (IH bd1); [|exact R]. eapply split_event_within_days; eassumption.
Qed.

Lemma get_schedule_by_day_returns (sch : TripSchedule) :
  exists by_day, get_schedule_by_day sch = Some by_day.
Proof.
  unfold get_schedule_by_day.
  destruct (split_events_ok (events sch) (events sch) []) as (bd & R & _).
  - auto.
  - intros k ds d [].
  - exists bd. exact R.
Qed.

(** X9: the day view of any schedule is built, has one entry per day, and
    every piece filed under a day starts and ends on that day and runs
    forward. *)
Theorem by_day_entries_are_days (sch : TripSchedule) :
  exists by_day,
    get_schedule_by_day sch = Some by_day
    /\ NoDup (map fst by_day)
    /\ (forall k ds d, In (k, ds) by_day -> In d ds ->
          date_of (start_time d) = k /\ date_of (end_time d) = k
          /\ (start_time d <= end_time d)%Z).
Proof.
  destruct (get_schedule_by_day_returns sch) as (by_day & R).
  exists by_day. split; [exact R|].
  unfold get_schedule_by_day in R. split.
  - apply (split_events_NoDup (events sch) [] by_day); [constructor | exact R].
  - apply (split_events_within_days (events sch) [] by_day);
      [intros k ds d [] | exact R].
Qed.

Lemma split_events_first_piece (evs : list ScheduleEvent) :
  forall rest by_day,
    (forall e, In e rest -> In e evs) ->
    by_day_ok evs by_day ->
    exists by_day',
      split_events rest by_day = Some by_day'
      /\ by_day_ok evs by_day'
      /\ (forall k d, has_sub by_day k d -> has_sub by_day' k d)
      /\ (forall e, In e rest -> (start_time e < end_time e)%Z ->
            has_sub by_day' (date_of (start_time e)) (day_piece e (start_time e))).
Proof.
  induction rest as [|e rest IH]; intros by_day Hsub Hok; cbn [split_events].
  - exists by_day. split; [reflexivity|]. split; [exact Hok|]. split; [auto|].
    intros e [].
  - destruct (split_event_ok evs e (Hsub e (or_introl eq_refl))
                (days_touched e) (start_time e) by_day)
      as (bd1 & R1 & Ok1 & Mono1 & Sub1);
      [lia | intros _; apply days_touched_enough | exact Hok |].
    rewrite R1.
    destruct (IH bd1) as (bd2 & R2 & Ok2 & Mono2 & Sub2);
      [intros x Hx; apply Hsub; right; exact Hx | exact Ok1 |].
    exists bd2. split; [exact R2|]. split; [exact Ok2|]. split.
    + intros k d H. apply Mono2, Mono1, H.
    + intros x [<- | Hx] L.
      * apply Mono2. apply (proj1 (Sub1 L)).
      * apply Sub2; assumption.
Qed.

Lemma day_piece_single_day (e : ScheduleEvent) :
  single_day e -> day_piece e (start_time e) = e.
Proof.
  intros [_ H]. destruct e as [st en stt nt loc ms me]. unfold day_piece. simpl in *.
  rewrite Z.min_r by exact H. reflexivity.
Qed.

(** X10: an event that lies within one calendar day is filed, unchanged, under
    that day. *)
Theorem single_day_events_are_filed_unchanged (sch : TripSchedule)
    (e : ScheduleEvent) :
  In e (events sch) ->
  single_day e ->
  exists by_day,
    get_schedule_by_day sch = Some by_day
    /\ has_sub by_day (date_of (start_time e)) e.
Proof.
  unfold get_schedule_by_day. intros I S.
  destruct (split_events_first_piece (events sch) (events sch) [])
    as (bd & R & _ & _ & Sub).
  - auto.
  - intros k ds d [].
  - exists bd. split; [exact R|].
    rewrite <- (day_piece_single_day e S) at 2.
    apply Sub; [exact I | exact (proj1 S)].
Qed.

Lemma single_day_events_are_filed_unchanged_witness :
  exists e by_day,
    nth_error (events short_trip_schedule) 1 = Some e
    /\ get_schedule_by_day short_trip_schedule = Some by_day
    /\ has_sub by_day (date_of (start_time e)) e.
Proof.
  eexists.
  destruct (single_day_events_are_filed_unchanged short_trip_schedule
              (nth 1 (events short_trip_schedule) night_drive))
    as (by_day & H).
  - right. left. reflexivity.
  - split; vm_compute; [reflexivity | discriminate].
  - exists by_day. split; [reflexivity | exact H].
Defined.

Lemma split_event_no_duration (fuel : nat) (e : ScheduleEvent) (by_day : ByDay) :
  has_duration e = false ->
  split_event fuel e (start_time e) by_day = Some by_day.
Proof.
  intro H. apply split_event_done. unfold has_duration in H.
  apply Z.ltb_ge in H. exact H.
Qed.

Lemma split_events_filter (evs : list ScheduleEvent) :
  forall by_day,
    split_events (filter has_duration evs) by_day = split_events evs by_day.
Proof.
  induction evs as [|e evs IH]; intro by_day; [reflexivity|].
  cbn [filter]. destruct (has_duration e) eqn:H; cbn [split_events].
  - destruct (split_event _ _ _ _); [apply IH | reflexivity].
  - rewrite (split_event_no_duration _ _ _ H). apply IH.
Qed.

(** X11: events of zero or negative length leave no trace in the day view: it
    is the day view of the schedule without them. *)
Theorem events_without_duration_are_dropped (sch : TripSchedule) :
  get_schedule_by_day sch
    = get_schedule_by_day (with_events (filter has_duration (events sch)) sch).
Proof.
  unfold get_schedule_by_day. simpl. symmetry. apply split_events_filter.
Qed.

(* ------------------------------------------------------------------ *)
(** ** Daily totals *)

Lemma add_event_totals_accounts (t : DailyTotals) (e : ScheduleEvent) :
  hours_accounted (add_event_totals t e) == hours_accounted t + duration_hours e
  /\ daily_total_miles (add_event_totals t e)
       == daily_total_miles t + driven_miles_of e.
Proof.
  unfold add_event_totals, hours_accounted, driven_miles_of.
  destruct (status e); simpl; split; lra.
Qed.

Lemma fold_totals_accounts (evs : list ScheduleEvent) :
  forall t,
    hours_accounted (fold_left add_event_totals evs t)
      == hours_accounted t + Qsum (map duration_hours evs)
    /\ daily_total_miles (fold_left add_event_totals evs t)
         == daily_total_miles t + Qsum (map driven_miles_of evs).
Proof.
  induction evs as [|e evs IH]; intro t; simpl.
  - split; lra.
  - destruct (IH (add_event_totals t e)) as [A B].
    destruct (add_event_totals_accounts t e) as [C D].
    rewrite A, B, C, D. split; lra.
Qed.

(** X12: the four hour totals of a day add up to the durations of all its
    events, whatever their status, and the day's miles are those of its
    DRIVING events only. *)
Theorem daily_totals_account_for_every_event (evs : list ScheduleEvent) :
  hours_accounted (calculate_daily_totals evs) == Qsum (map duration_hours evs)
  /\ daily_total_miles (calculate_daily_totals evs)
       == Qsum (map driven_miles_of evs).
Proof.
  unfold calculate_daily_totals.
  destruct (fold_totals_accounts evs (mkDailyTotals 0 0 0 0 0)) as [A B].
  rewrite A, B. unfold hours_accounted. simpl. split; lra.
Qed.

(* ------------------------------------------------------------------ *)
(** ** The hours of a day *)

Lemma packed_weaken (ds : list ScheduleEvent) :
  forall lo hi hi', packed lo ds hi -> (hi <= hi')%Z -> packed lo ds hi'.
Proof.
  induction ds as [|d ds IH]; simpl; intros lo hi hi' H L.
  - lia.
  - destruct H as (A & B & C). split; [exact A|]. split; [exact B|].
    apply (IH _ _ _ C L).
Qed.

Lemma packed_snoc (ds : list ScheduleEvent) (d : ScheduleEvent) :
  forall lo hi hi',
    packed lo ds hi -> (hi <= start_time d)%Z ->
    (start_time d <= end_time d)%Z -> (end_time d <= hi')%Z ->
    packed lo (ds ++ [d]) hi'.
Proof.
  induction ds as [|x ds IH]; simpl; intros lo hi hi' H L1 L2 L3.
  - lia.
  - destruct H as (A & B & C). split; [exact A|]. split; [exact B|].
    apply (IH _ _ _ C L1 L2 L3).
Qed.

Lemma packed_hours (ds : list ScheduleEvent) :
  forall lo hi,
    packed lo ds hi ->
    Qsum (map duration_hours ds) <= hours_between lo hi.
Proof.
  induction ds as [|d ds IH]; simpl; intros lo hi H.
  - unfold hours_between. change (inject_Z US_PER_HOUR) with 3600000000.
    assert (0 <= inject_Z (hi - lo)).
    { change 0 with (inject_Z 0). rewrite <- Zle_Qle. lia. }
    unfold Qdiv. change (/ 3600000000) with (1 # 3600000000). lra.
  - destruct H as (A & B & C). specialize (IH _ _ C).
    unfold duration_hours, hours_between in *.
    change (inject_Z US_PER_HOUR) with 3600000000 in *.
    assert (E : inject_Z (hi - lo)
                >= inject_Z (end_time d - start_time d) + inject_Z (hi - end_time d)).
    { rewrite <- inject_Z_plus, <- Zle_Qle. lia. }
    unfold Qdiv in *. change (/ 3600000000) with (1 # 3600000000) in *. lra.
Qed.

Lemma by_day_append_packed (front : datetime) (k : Z) (d : ScheduleEvent)
    (by_day : ByDay) :
  days_packed front by_day ->
  (front <= start_time d)%Z ->
  (start_time d <= end_time d)%Z ->
  (day_start k <= start_time d)%Z ->
  (end_time d <= day_start (k + 1) - 1)%Z ->
  days_packed (end_time d) (by_day_append k d by_day).
Proof.
  intros H L1 L2 L3 L4.
  induction by_day as [|[k0 ds0] rest IH]; simpl.
  - intros k' ds [E | []]. injection E as <- <-. simpl. lia.
  - assert (Hrest : days_packed front rest).
    { intros k' ds I. apply H. right. exact I. }
    assert (H0 : packed (day_start k0) ds0 (Z.min front (day_start (k0 + 1) - 1))).
    { apply H. left. reflexivity. }
    destruct (k0 =? k)%Z eqn:K.
    + apply Z.eqb_eq in K. subst k0.
      intros k' ds [E | I].
      * injection E as <- <-.
        apply (packed_snoc _ _ _ _ _ H0); lia.
      * apply (packed_weaken _ _ _ _ (Hrest _ _ I)). lia.
    + intros k' ds [E | I].
      * injection E as <- <-. apply (packed_weaken _ _ _ _ H0). lia.
      * apply (IH Hrest _ _ I).
Qed.

Lemma day_piece_bounds (event : ScheduleEvent) (cur : datetime) :
  (cur < end_time event)%Z ->
  (day_start (date_of cur) <= cur)%Z
  /\ (cur <= end_time (day_piece event cur))%Z
  /\ (end_time (day_piece event cur) <= day_start (date_of cur + 1) - 1)%Z
  /\ (end_time (day_piece event cur) <= next_day_start cur)%Z
  /\ (end_time (day_piece event cur) <= end_time event)%Z.
Proof.
  intro L. unfold day_piece. simpl.
  unfold day_start, next_day_start, replace_hms, date_of, timedelta_days.
  unfold US_PER_DAY, US_PER_HOUR, US_PER_MINUTE, US_PER_SECOND.
  Z.div_mod_to_equations. lia.
Qed.

Lemma days_packed_weaken (front front' : datetime) (by_day : ByDay) :
  days_packed front by_day -> (front <= front')%Z -> days_packed front' by_day.
Proof.
  intros H L k ds I. apply (packed_weaken _ _ _ _ (H _ _ I)). lia.
Qed.

Lemma split_event_packed (event : ScheduleEvent) :
  forall fuel cur front by_day by_day',
    days_packed front by_day ->
    (front <= cur)%Z ->
    split_event fuel event cur by_day = Some by_day' ->
    days_packed (Z.max front (end_time event)) by_day'.
Proof.
  induction fuel as [|fuel IH]; intros cur front by_day by_day' H L R.
  - simpl in R. destruct (cur <? end_time event)%Z; [discriminate|].
    injection R as <-. apply (days_packed_weaken _ _ _ H). lia.
  - destruct (Z_lt_le_dec cur (end_time event)) as [Lt | Ge].
    + rewrite split_event_step in R by exact Lt.
      destruct (day_piece_bounds event cur Lt) as (B1 & B2 & B3 & B4 & B5).
      assert (P : days_packed (end_time (day_piece event cur))
                    (by_day_append (date_of cur) (day_piece event cur) by_day)).
      { apply (by_day_append_packed front); try assumption; exact B2. }
      apply (IH _ _ _ _ P B4) in R.
      apply (days_packed_weaken _ _ _ R). lia.
    + rewrite split_event_done in R by exact Ge. injection R as <-.
      apply (days_packed_weaken _ _ _ H). lia.
Qed.

Lemma split_events_packed (evs : list ScheduleEvent) :
  forall t0 t1 front by_day by_day',
    tiles t0 evs t1 ->
    Forall (fun e => (start_time e <= end_time e)%Z) evs ->
    days_packed front by_day ->
    (front <= t0)%Z ->
    split_events evs by_day = Some by_day' ->
    days_packed t1 by_day'.
Proof.
  induction evs as [|e evs IH]; intros t0 t1 front by_day by_day' T F H L R.
  - simpl in T, R. injection R as <-. subst t1.
    apply (days_packed_weaken _ _ _ H L).
  - cbn [split_events] in R. destruct T as [S T].
    inversion F as [|? ? Fe Fr]; subst.
    destruct (split_event _ _ _ _) as [bd|] eqn:R1; [|discriminate].
    apply (split_event_packed e _ _ front) in R1; [|exact H | lia].
    apply (IH _ _ _ _ _ T Fr R1); [lia | exact R].
Qed.

Lemma finish_schedule_events (m : Q) (t : datetime) (sch : TripSchedule) :
  events (finish_schedule m t sch) = events sch.
Proof. reflexivity. Qed.

(** The day view of a produced schedule is built, and each day's pieces
    are packed into that day. *)
Lemma produced_days_packed (fuel : nat) (now : datetime)
    (route : RouteResult) (c p d : Location) (cycle : Q)
    (start : option datetime) (sch : TripSchedule) :
  create_trip_schedule fuel now route c p d cycle start = Returned sch ->
  exists by_day,
    get_schedule_by_day sch = Some by_day
    /\ forall k ds, In (k, ds) by_day ->
         packed (day_start k) ds (day_start (k + 1) - 1)%Z.
Proof.
  intro R.
  destruct (get_schedule_by_day_returns sch) as (by_day & G).
  exists by_day. split; [exact G|].
  destruct (create_trip_schedule_returns _ _ _ _ _ _ _ _ _ R) as (s & Ok & -> & _).
  unfold get_schedule_by_day in G. rewrite finish_schedule_events in G.
  assert (P : days_packed (current_time s) by_day).
  { apply (split_events_packed _ _ _ (effective_start now start) [] _
             (log_tiles _ _ Ok) (log_forward _ _ Ok)).
    - intros k' ds' [].
    - lia.
    - exact G. }
  intros k ds I. specialize (P _ _ I).
  apply (packed_weaken _ _ _ _ P). lia.
Qed.

(** X13: on every day of the day view of a produced schedule, the hours the
    daily totals count (driving, on duty, off duty and sleeper berth
    together) stay below 24. *)
Theorem daily_totals_stay_below_24_hours (fuel : nat) (now : datetime)
    (route : RouteResult) (c p d : Location) (cycle : Q)
    (start : option datetime) (sch : TripSchedule) :
  create_trip_schedule fuel now route c p d cycle start = Returned sch ->
  exists by_day,
    get_schedule_by_day sch = Some by_day
    /\ forall k ds, In (k, ds) by_day ->
         hours_accounted (calculate_daily_totals ds) < 24.
Proof.
  intro R.
  destruct (produced_days_packed _ _ _ _ _ _ _ _ _ R) as (by_day & G & PK).
  exists by_day. split; [exact G|]. intros k ds I.
  pose proof (PK _ _ I) as P.
  apply (packed_weaken _ _ _ (day_start (k + 1) - 1)%Z) in P; [|lia].
  apply packed_hours in P.
  unfold calculate_daily_totals.
  destruct (fold_totals_accounts ds (mkDailyTotals 0 0 0 0 0)) as [A _].
  rewrite A. unfold hours_accounted at 1. simpl.
  assert (E : hours_between (day_start k) (day_start (k + 1) - 1)%Z < 24).
  { unfold hours_between, day_start.
    replace (((k + 1) * US_PER_DAY - 1) - k * US_PER_DAY)%Z
      with (US_PER_DAY - 1)%Z by lia.
    vm_compute. reflexivity. }
  lra.
Qed.

Lemma daily_totals_stay_below_24_hours_witness :
  three_day_trip = Returned three_day_schedule
  /\ exists by_day,
       get_schedule_by_day three_day_schedule = Some by_day
       /\ forall k ds, In (k, ds) by_day ->
            hours_accounted (calculate_daily_totals ds) < 24.
Proof.
  split; [vm_compute; reflexivity|].
  apply (daily_totals_stay_below_24_hours 20 0%Z (route_of_miles [600; 600])
           depot depot depot 0 (Some 0%Z) three_day_schedule).
  vm_compute. reflexivity.
Defined.

(* ------------------------------------------------------------------ *)
(** ** The time axis of the log sheet *)

Lemma second_of_day_fields (t : datetime) :
  (hour_of t * 3600 + minute_of t * 60 + second_of t = second_of_day t)%Z.
Proof.
  unfold hour_of, minute_of, second_of, second_of_day.
  unfold US_PER_DAY, US_PER_HOUR, US_PER_MINUTE, US_PER_SECOND.
  Z.div_mod_to_equations. lia.
Qed.

Lemma second_of_day_range (t : datetime) :
  (0 <= second_of_day t <= 86399)%Z.
Proof.
  unfold second_of_day.
  unfold US_PER_DAY, US_PER_HOUR, US_PER_MINUTE, US_PER_SECOND.
  Z.div_mod_to_equations. lia.
Qed.

Lemma time_to_x_coordinate_seconds (t : datetime) :
  time_to_x_coordinate t == 150 + inject_Z (second_of_day t) * (1 # 96).
Proof.
  unfold time_to_x_coordinate. rewrite <- second_of_day_fields.
  rewrite !inject_Z_plus, !inject_Z_mult.
  change (inject_Z 3600) with 3600. change (inject_Z 60) with 60.
  generalize (inject_Z (hour_of t)) (inject_Z (minute_of t))
    (inject_Z (second_of t)). intros h m s.
  unfold HOUR_WIDTH, GRID_WIDTH, GRID_LEFT, GRID_RIGHT, HOURS_IN_DAY, Qdiv.
  change (/ 60) with (1 # 60). change (/ 3600) with (1 # 3600).
  change (/ 24) with (1 # 24). lra.
Qed.

Lemma time_to_x_coordinate_range (t : datetime) :
  GRID_LEFT <= time_to_x_coordinate t /\ time_to_x_coordinate t < GRID_RIGHT.
Proof.
  rewrite time_to_x_coordinate_seconds.
  destruct (second_of_day_range t) as [A B].
  rewrite Zle_Qle in A, B.
  change (inject_Z 0) with 0 in A. change (inject_Z 86399) with 86399 in B.
  unfold GRID_LEFT, GRID_RIGHT. split; lra.
Qed.

Lemma clamp_in_grid (x : Q) :
  GRID_LEFT <= x -> x <= GRID_RIGHT ->
  py_max GRID_LEFT (py_min x GRID_RIGHT) == x.
Proof.
  intros A B. unfold py_max, py_min. qcases; lra.
Qed.

(** X14: every time of day falls inside the grid, left edge included and right
    edge excluded, so the clamp to the grid boundaries in
    [draw_duty_status_lines] never moves a coordinate. *)
Theorem grid_clamp_never_moves_a_time (t : datetime) :
  GRID_LEFT <= time_to_x_coordinate t < GRID_RIGHT
  /\ py_max GRID_LEFT (py_min (time_to_x_coordinate t) GRID_RIGHT)
     == time_to_x_coordinate t.
Proof.
  destruct (time_to_x_coordinate_range t) as [A B].
  split; [split; assumption|].
  apply clamp_in_grid; lra.
Qed.

(* ------------------------------------------------------------------ *)
(** ** The duty lines of a day *)

Lemma second_of_day_monotone (k : Z) (t1 t2 : datetime) :
  (day_start k <= t1)%Z -> (t1 <= t2)%Z -> (t2 <= day_start (k + 1) - 1)%Z ->
  (second_of_day t1 <= second_of_day t2)%Z.
Proof.
  unfold second_of_day, day_start.
  unfold US_PER_DAY, US_PER_HOUR, US_PER_MINUTE, US_PER_SECOND.
  intros A B C. Z.div_mod_to_equations. lia.
Qed.

Lemma time_to_x_coordinate_monotone (k : Z) (t1 t2 : datetime) :
  (day_start k <= t1)%Z -> (t1 <= t2)%Z -> (t2 <= day_start (k + 1) - 1)%Z ->
  time_to_x_coordinate t1 <= time_to_x_coordinate t2.
Proof.
  intros A B C. rewrite !time_to_x_coordinate_seconds.
  pose proof (second_of_day_monotone k t1 t2 A B C) as M.
  rewrite Zle_Qle in M. lra.
Qed.

Lemma packed_ends (ds : list ScheduleEvent) :
  forall lo hi, packed lo ds hi -> (lo <= hi)%Z.
Proof.
  induction ds as [|d ds IH]; simpl; intros lo hi H.
  - exact H.
  - destruct H as (A & B & C). specialize (IH _ _ C). lia.
Qed.

(** A packed list is in the order of its start times already. *)
Lemma sorted_by_start_packed (ds : list ScheduleEvent) :
  forall lo hi, packed lo ds hi -> sorted_by_start ds = ds.
Proof.
  induction ds as [|d ds IH]; intros lo hi H; [reflexivity|].
  destruct H as (A & B & C).
  change (sorted_by_start (d :: ds))
    with (insert_by_start d (sorted_by_start ds)).
  rewrite (IH _ _ C).
  destruct ds as [|x ds]; [reflexivity|].
  simpl. destruct C as (C1 & _).
  assert (E : (start_time d <=? start_time x)%Z = true) by (apply Z.leb_le; lia).
  rewrite E. reflexivity.
Qed.

Lemma left_to_right_weaken (ls : list Line) :
  forall lo hi hi', left_to_right lo ls hi -> hi <= hi' -> left_to_right lo ls hi'.
Proof.
  induction ls as [|l ls IH]; simpl; intros lo hi hi' H L.
  - lra.
  - destruct H as (A & B & C). split; [exact A|]. split; [exact B|].
    apply (IH _ _ _ C L).
Qed.

Lemma left_to_right_snoc (ls : list Line) (l : Line) :
  forall lo hi hi',
    left_to_right lo ls hi ->
    hi <= fst (line_from l) -> fst (line_from l) < fst (line_to l) ->
    fst (line_to l) <= hi' ->
    left_to_right lo (ls ++ [l]) hi'.
Proof.
  induction ls as [|x ls IH]; simpl; intros lo hi hi' H L1 L2 L3.
  - split; [lra|]. split; [exact L2 | exact L3].
  - destruct H as (A & B & C). split; [exact A|]. split; [exact B|].
    apply (IH _ _ _ C L1 L2 L3).
Qed.

(** A pass adds at most one duty line, after at most one connecting
    line. *)
Lemma draw_event_duty_lines (pen : Pen) (event : ScheduleEvent) :
  duty_lines (drawn (draw_event pen event))
  = duty_lines (drawn pen)
    ++ (let start_x :=
          py_max GRID_LEFT
            (py_min (time_to_x_coordinate (start_time event)) GRID_RIGHT) in
        let end_x :=
          py_max GRID_LEFT
            (py_min (time_to_x_coordinate (end_time event)) GRID_RIGHT) in
        if Qltb start_x end_x
        then [mkLine (start_x, ROW_POSITIONS (status event))
                (end_x, ROW_POSITIONS (status event)) LINE_WIDTH_DUTY]
        else []).
Proof.
  unfold draw_event, duty_lines. cbv zeta. simpl drawn.
  destruct (prev_status pen) as [ps|];
    [destruct (negb (DutyStatus_eqb ps (status event)));
     [destruct (prev_x pen) as [px|]|]|];
    destruct (Qltb _ _);
    rewrite ?filter_app; simpl; rewrite ?app_nil_r; reflexivity.
Qed.

Lemma draw_packed (k : Z) (ds : list ScheduleEvent) :
  forall lo hi pen,
    packed lo ds hi ->
    (day_start k <= lo)%Z -> (hi <= day_start (k + 1) - 1)%Z ->
    left_to_right GRID_LEFT (duty_lines (drawn pen)) (time_to_x_coordinate lo) ->
    left_to_right GRID_LEFT
      (duty_lines (drawn (fold_left draw_event ds pen)))
      (time_to_x_coordinate hi).
Proof.
  induction ds as [|d ds IH]; simpl; intros lo hi pen P A B H.
  - apply (left_to_right_weaken _ _ _ _ H).
    apply (time_to_x_coordinate_monotone k); lia.
  - destruct P as (P1 & P2 & P3).
    pose proof (packed_ends _ _ _ P3) as P4.
    apply (IH (end_time d) hi); [exact P3 | lia | exact B |].
    rewrite draw_event_duty_lines. cbv zeta.
    destruct (time_to_x_coordinate_range (start_time d)) as [S1 S2].
    destruct (time_to_x_coordinate_range (end_time d)) as [E1 E2].
    pose proof (clamp_in_grid (time_to_x_coordinate (start_time d)) S1
                  (Qlt_le_weak _ _ S2)) as CS.
    pose proof (clamp_in_grid (time_to_x_coordinate (end_time d)) E1
                  (Qlt_le_weak _ _ E2)) as CE.
    assert (M1 : time_to_x_coordinate lo <= time_to_x_coordinate (start_time d))
      by (apply (time_to_x_coordinate_monotone k); lia).
    assert (M2 : time_to_x_coordinate (start_time d)
                 <= time_to_x_coordinate (end_time d))
      by (apply (time_to_x_coordinate_monotone k); lia).
    destruct (Qltb _ _) eqn:L.
    + apply Qltb_true in L.
      apply (left_to_right_snoc _ _ _ _ _ H); simpl; lra.
    + rewrite app_nil_r. apply (left_to_right_weaken _ _ _ _ H). lra.
Qed.

(** X15: on the log sheet of every day of a produced schedule, the duty lines
    run from left to right inside the grid: each has positive length and
    none starts before the previous one ended. *)
Theorem duty_lines_run_left_to_right (fuel : nat) (now : datetime)
    (route : RouteResult) (c p d : Location) (cycle : Q)
    (start : option datetime) (sch : TripSchedule) :
  create_trip_schedule fuel now route c p d cycle start = Returned sch ->
  exists by_day,
    get_schedule_by_day sch = Some by_day
    /\ forall k ds, In (k, ds) by_day ->
         left_to_right GRID_LEFT (duty_lines (draw_duty_status_lines ds))
           GRID_RIGHT.
Proof.
  intro R.
  destruct (produced_days_packed _ _ _ _ _ _ _ _ _ R) as (by_day & G & PK).
  exists by_day. split; [exact G|]. intros k ds I.
  pose proof (PK _ _ I) as P.
  unfold draw_duty_status_lines. rewrite (sorted_by_start_packed _ _ _ P).
  apply (left_to_right_weaken _ _ (time_to_x_coordinate (day_start (k + 1) - 1)%Z)).
  - apply (draw_packed k _ _ _ _ P); [lia | lia |]. simpl.
    apply (proj1 (time_to_x_coordinate_range _)).
  - apply Qlt_le_weak. apply (proj2 (time_to_x_coordinate_range _)).
Qed.

Lemma duty_lines_run_left_to_right_witness :
  three_day_trip = Returned three_day_schedule
  /\ exists by_day,
       get_schedule_by_day three_day_schedule = Some by_day
       /\ forall k ds, In (k, ds) by_day ->
            left_to_right GRID_LEFT (duty_lines (draw_duty_status_lines ds))
              GRID_RIGHT.
Proof.
  split; [vm_compute; reflexivity|].
  apply (duty_lines_run_left_to_right 20 0%Z (route_of_miles [600; 600])
           depot depot depot 0 (Some 0%Z) three_day_schedule).
  vm_compute. reflexivity.
Defined.

(* ------------------------------------------------------------------ *)
(** ** The default start time *)

Lemma default_start_time_spec (now : datetime) :
  (default_start_time now mod US_PER_HOUR = 0)%Z
  /\ (now < default_start_time now <= now + US_PER_HOUR)%Z.
Proof.
  unfold default_start_time, US_PER_HOUR, US_PER_MINUTE, US_PER_SECOND.
  split.
  - replace (now / (60 * (60 * 1000000)) * (60 * (60 * 1000000))
             + 1 * (60 * (60 * 1000000)))%Z
      with ((now / (60 * (60 * 1000000)) + 1) * (60 * (60 * 1000000)))%Z by lia.
    apply Z.mod_mul. lia.
  - Z.div_mod_to_equations. lia.
Qed.

(** X16: a schedule produced without a start time starts on the next full
    hour: its start time is a whole hour, later than the clock reading and
    at most one hour later. *)
Theorem schedule_starts_on_the_next_full_hour (fuel : nat) (now : datetime)
    (route : RouteResult) (c p d : Location) (cycle : Q) (sch : TripSchedule) :
  create_trip_schedule fuel now route c p d cycle None = Returned sch ->
  exists t,
    trip_start_time sch = Some t
    /\ (t mod US_PER_HOUR = 0)%Z
    /\ (now < t <= now + US_PER_HOUR)%Z.
Proof.
  intro R.
  destruct (create_trip_schedule_returns _ _ _ _ _ _ _ _ _ R) as (s & Ok & -> & _).
  exists (default_start_time now).
  split; [exact (log_start _ _ Ok)|].
  apply default_start_time_spec.
Qed.

Lemma schedule_starts_on_the_next_full_hour_witness :
  exists sch t,
    create_trip_schedule 10 5400000000%Z (route_of_miles [50; 50])
      depot depot depot 0 None = Returned sch
    /\ trip_start_time sch = Some t
    /\ (t mod US_PER_HOUR = 0)%Z
    /\ (5400000000 < t <= 5400000000 + US_PER_HOUR)%Z.
Proof.
  destruct (schedule_starts_on_the_next_full_hour 10 5400000000%Z
              (route_of_miles [50; 50]) depot depot depot 0
              (match create_trip_schedule 10 5400000000%Z (route_of_miles [50; 50])
                       depot depot depot 0 None with
               | Returned sch => sch
               | _ => mkTripSchedule [] [] 0 0 0 0 None None
               end))
    as (t & H).
  - vm_compute. reflexivity.
  - eexists. exists t. split; [vm_compute; reflexivity | exact H].
Defined.

(* ------------------------------------------------------------------ *)
(** ** The request path of plan_trip *)

(** X17: for a location that passed [LocationSerializer], [_parse_location]
    raises only when a coordinate is missing and the geocoder finds nothing
    for the address: the "unable to determine" error stands for a failed
    geocoding, never for missing input. *)
Theorem validated_location_fails_only_in_geocoding
    (geocode_address : string -> option Location)
    (reverse_geocode : Q -> Q -> string) (data : LocationData) :
  LocationSerializer_is_valid data = true ->
  (_parse_location geocode_address reverse_geocode data = None
   <-> (data_lat data = None \/ data_lng data = None)
       /\ exists a, data_address data = Some a /\ geocode_address a = None).
Proof.
  unfold LocationSerializer_is_valid, _parse_location.
  destruct data as [[la|] [ln|] [a|]]; simpl; intro V.
  all: try (split; [discriminate|];
            intros [[E | E] _]; discriminate).
  all: try (destruct a; discriminate).
  all: try (rewrite andb_false_r in V; discriminate).
  all: try discriminate.
  all: destruct a as [|ch a];
    [rewrite andb_false_r in V; discriminate|].
  all: split;
    [intro H; split; [auto|]; eexists; split; [reflexivity | exact H]
    | intros [_ (a' & E & H)]; injection E as <-; exact H].
Qed.

Lemma validated_location_fails_only_in_geocoding_witness :
  _parse_location (fun _ => None) (fun _ _ => EmptyString) address_only = None
  <-> (data_lat address_only = None \/ data_lng address_only = None)
      /\ exists a, data_address address_only = Some a
                   /\ (fun _ : string => @None Location) a = None.
Proof.
  apply (validated_location_fails_only_in_geocoding
           (fun _ => None) (fun _ _ => EmptyString) address_only).
  reflexivity.
Defined.



(* ------------------------------------------------------------------ *)
(** ** Driving and the cycle limit *)













